(** * MathEye: the label pipeline of the training script and the decision
      logic of the inference service

    A shallow embedding of [Model_Training/train_model.py] (label remapping and
    the symbol metadata builder) and of [web_app/app.py] (start-up, image
    preprocessing, the [/predict] and [/health] handlers), followed by the
    properties the specification states about them.

    Conventions.
    - Python [int] is [Z]; positions produced by [enumerate] and [np.argmax]
      are [nat].
    - Python [str] is [string]; a non-ASCII glyph is its UTF-8 byte sequence,
      so a string is empty here exactly when it is empty in Python.
    - Python [float] (and a NumPy float64 scalar) is the kernel's binary64
      [float]; comparisons and products are the IEEE ones.
    - A Python [dict] is a [gmap]; a dict display or comprehension inserts its
      items from left to right, a later item replacing an earlier one.
    - A raised exception is [Raise] carrying [str(e)], and code that can
      raise is written in the exception monad; where a single [KeyError] is
      the only possible exception, [None] stands for it.
    - Console output ([print]) is not modelled.  The files the training
      script leaves under [models/] are a record of their contents, passed
      along; the calls of [model.predict] are a log. *)

From Stdlib Require Import ZArith List Floats Uint63.
From stdpp Require Import gmap strings list fin_maps fin_sets sorting pretty.

Set Warnings "-inexact-float".

#[local] Open Scope Z_scope.

(** ** Shared Python idioms *)

(** A value or a raised exception (its message). *)
Inductive exn (A : Type) : Type :=
  | Raise (msg : string)
  | Return (a : A).
Arguments Raise {A} _.
Arguments Return {A} _.

#[global] Instance exn_ret : MRet exn := λ A a, Return a.
#[global] Instance exn_bind : MBind exn := λ A B k m,
  match m with
  | Raise e => Raise e
  | Return a => k a
  end.

(** [{k: v for ...}] and dict displays: successive insertion. *)
Definition dict_of `{Countable K} {V} (items : list (K * V)) : gmap K V :=
  foldl (λ d kv, <[kv.1 := kv.2]> d) ∅ items.

(** [enumerate(xs)]. *)
Definition enumerate {A} (xs : list A) : list (nat * A) := imap pair xs.

(** [chr(i)] for a code point below 256. *)
Definition chr (i : nat) : string := String (Ascii.ascii_of_nat i) "".

(** * Part I: [Model_Training/train_model.py] *)

Module TrainModel.

(** ** [np.unique] on a one-dimensional integer array

    NumPy sorts a copy of the array, builds the mask that is true at position
    0 and wherever an element differs from its predecessor, and returns the
    masked array. *)

Fixpoint mask_changes (prev : Z) (ar : list Z) : list Z :=
  match ar with
  | [] => []
  | x :: ar' =>
      if decide (x ≠ prev) then x :: mask_changes x ar' else mask_changes x ar'
  end.

Definition np_unique (ar : list Z) : list Z :=
  match merge_sort Z.le ar with
  | [] => []
  | x :: ar' => x :: mask_changes x ar'
  end.

(** ** [remap_labels]

    [forward[int(l)]] raises [KeyError] on a missing key: the list
    comprehension is a [mapM] in the option monad, [None] standing for the
    exception.  The final [np.array(..., dtype=np.int32)] stores positions,
    which are smaller than the number of labels; it is the identity on them
    and is not modelled further. *)

Definition remap_labels (labels : list Z)
  : option (list nat * gmap Z nat * gmap nat Z) :=
  let unique := np_unique labels in
  let forward : gmap Z nat :=
    dict_of ((λ '(new, old), (old, new)) <$> enumerate unique) in
  let reverse : gmap nat Z :=
    dict_of ((λ '(new, old), (new, old)) <$> enumerate unique) in
  new_labels ← mapM (λ l, forward !! l) labels;
  Some (new_labels, forward, reverse).


(** ** [create_label_mapping]

    The static LaTeX-command to Unicode-glyph table, one list per block of
    the dict display, in source order. *)

Definition latex_to_unicode_greek_lowercase : list (string * string) :=
  [ ("\alpha", "α"); ("\beta", "β"); ("\gamma", "γ");
    ("\delta", "δ"); ("\epsilon", "ε"); ("\zeta", "ζ");
    ("\eta", "η"); ("\theta", "θ"); ("\iota", "ι");
    ("\kappa", "κ"); ("\lambda", "λ"); ("\mu", "μ");
    ("\nu", "ν"); ("\xi", "ξ"); ("\pi", "π");
    ("\rho", "ρ"); ("\sigma", "σ"); ("\tau", "τ");
    ("\upsilon", "υ"); ("\phi", "φ"); ("\chi", "χ");
    ("\psi", "ψ"); ("\omega", "ω") ].

Definition latex_to_unicode_greek_uppercase : list (string * string) :=
  [ ("\Gamma", "Γ"); ("\Delta", "Δ"); ("\Theta", "Θ");
    ("\Lambda", "Λ"); ("\Xi", "Ξ"); ("\Pi", "Π");
    ("\Sigma", "Σ"); ("\Phi", "Φ"); ("\Psi", "Ψ");
    ("\Omega", "Ω") ].

Definition latex_to_unicode_operators : list (string * string) :=
  [ ("\sum", "∑"); ("\prod", "∏"); ("\int", "∫");
    ("\oint", "∮"); ("\infty", "∞"); ("\partial", "∂");
    ("\nabla", "∇"); ("\pm", "±"); ("\mp", "∓");
    ("\times", "×"); ("\div", "÷"); ("\cdot", "·");
    ("\ast", "∗") ].

Definition latex_to_unicode_relations : list (string * string) :=
  [ ("\neq", "≠"); ("\leq", "≤"); ("\geq", "≥");
    ("\ll", "≪"); ("\gg", "≫"); ("\approx", "≈");
    ("\equiv", "≡"); ("\sim", "∼"); ("\simeq", "≃");
    ("\propto", "∝") ].

Definition latex_to_unicode_logic : list (string * string) :=
  [ ("\forall", "∀"); ("\exists", "∃"); ("\neg", "¬");
    ("\wedge", "∧"); ("\vee", "∨") ].

Definition latex_to_unicode_sets : list (string * string) :=
  [ ("\emptyset", "∅"); ("\cap", "∩"); ("\cup", "∪");
    ("\subset", "⊂"); ("\supset", "⊃"); ("\subseteq", "⊆");
    ("\supseteq", "⊇"); ("\in", "∈"); ("\notin", "∉");
    ("\ni", "∋") ].

Definition latex_to_unicode_arrows : list (string * string) :=
  [ ("\rightarrow", "→"); ("\leftarrow", "←"); ("\uparrow", "↑");
    ("\downarrow", "↓"); ("\Rightarrow", "⇒"); ("\Leftarrow", "⇐");
    ("\leftrightarrow", "↔"); ("\Leftrightarrow", "⇔"); ("\to", "→");
    ("\gets", "←"); ("\mapsto", "↦") ].

Definition latex_to_unicode_geometry : list (string * string) :=
  [ ("\angle", "∠"); ("\perp", "⊥"); ("\parallel", "∥");
    ("\triangle", "△") ].

(** [**{str(i): str(i) for i in range(10)}] *)
Definition latex_to_unicode_numbers : list (string * string) :=
  (λ i : nat, (pretty i, pretty i)) <$> seq 0 10.

(** [**{chr(i): chr(i) for i in range(ord('a'), ord('z') + 1)}] *)
Definition latex_to_unicode_lowercase_letters : list (string * string) :=
  (λ i : nat, (chr i, chr i)) <$> seq 97 26.

(** [**{chr(i): chr(i) for i in range(ord('A'), ord('Z') + 1)}] *)
Definition latex_to_unicode_uppercase_letters : list (string * string) :=
  (λ i : nat, (chr i, chr i)) <$> seq 65 26.

Definition latex_to_unicode_basic_symbols : list (string * string) :=
  [ ("+", "+"); ("-", "-"); ("=", "=");
    ("<", "<"); (">", ">"); ("(", "(");
    (")", ")"); ("[", "["); ("]", "]");
    ("{", "{"); ("}", "}"); ("/", "/");
    ("*", "*"); ("^", "^"); ("_", "_");
    ("!", "!"); ("?", "?"); (".", ".");
    (",", ","); (":", ":"); (";", ";") ].

Definition latex_to_unicode : gmap string string :=
  dict_of (latex_to_unicode_greek_lowercase
           ++ latex_to_unicode_greek_uppercase
           ++ latex_to_unicode_operators
           ++ latex_to_unicode_relations
           ++ latex_to_unicode_logic
           ++ latex_to_unicode_sets
           ++ latex_to_unicode_arrows
           ++ latex_to_unicode_geometry
           ++ latex_to_unicode_numbers
           ++ latex_to_unicode_lowercase_letters
           ++ latex_to_unicode_uppercase_letters
           ++ latex_to_unicode_basic_symbols).

#[global] Arguments latex_to_unicode : simpl never.

(** A cell of the label table as [row[...]] returns it: a missing value
    (NaN) or text.  [str] of a missing value is ["nan"]. *)
Inductive cell : Type :=
  | NaN
  | Str (s : string).

Definition str (c : cell) : string :=
  match c with
  | NaN => "nan"
  | Str s => s
  end.

(** A row of [labels_csv].  The [unicode] column is optional: [None] when
    the table has no such column, in which case [row.get("unicode", "")]
    returns its default. *)
Record row : Type := Row {
  symbol_id : Z;
  latex : cell;
  unicode : option cell;
}.

Definition row_get_unicode (r : row) : cell := default (Str "") (unicode r).

(** The entry built for a row (the assignments to [latex] and
    [unicode_val] and the dict display stored under [sid]). *)
Definition make_entry (r : row) : gmap string string :=
  let latex := str (latex r) in
  let unicode_val := str (row_get_unicode r) in
  let unicode_val :=
    if bool_decide (unicode_val = "") || bool_decide (unicode_val = "nan")
    then default "" (latex_to_unicode !! latex)
    else unicode_val in
  dict_of [("latex", latex); ("unicode", unicode_val)].

(** The loop body of [create_label_mapping]: [continue] on a key already
    present, otherwise one new entry. *)
Definition add_row (label_map : gmap string (gmap string string)) (r : row)
  : gmap string (gmap string string) :=
  let sid := pretty (symbol_id r) in
  if bool_decide (is_Some (label_map !! sid)) then label_map
  else <[sid := make_entry r]> label_map.

(** The returned [label_map]; [labels.json] receives the same dictionary. *)
Definition create_label_mapping (labels_csv : list row)
  : gmap string (gmap string string) :=
  foldl add_row ∅ labels_csv.

(** ** [load_hasy_dataset], [train_model], [save_all] and [main]

    A row of [hasy-data-labels.csv] as [iterrows] yields it: the image path
    and the columns [create_label_mapping] reads.  The columns [path],
    [symbol_id] and [latex] are those of HASYv2, a text, an integer and a
    text column. *)
Record hasy_row : Type := HasyRow {
  path : string;
  meta : row;
}.

(** What the pipeline calls and does not define: pandas, the file system,
    OpenCV and Keras.
    - [pd_read_csv] is [pd.read_csv] on a path: the rows of the table, or
      the exception it raises on a missing or malformed file.
    - [cv2_imread] is [None] where [cv2.imread] returns [None] (a file it
      cannot decode); [cv2.resize] then raises a [cv2.error], whose text is
      [cv2_resize_error].
    - [keras_fit] stands for everything [train_model] does with the class
      count, the images and the labels once it has counted the classes
      (one-hot encoding, the split, the model, the fit with its callbacks).
      Beside the outcome of the fit it gives the model that the
      [ModelCheckpoint] callback last saved to [models/best_model.keras],
      [None] when the callback saved nothing.
    - [tflite_convert] is the converter [save_all] runs. *)
Class Environment : Type := {
  raster : Type;
  tensor : Type;
  TrainedModel : Type;
  os_path_join : string → string → string;
  os_path_exists : string → bool;
  pd_read_csv : string → exn (list hasy_row);
  cv2_imread : string → option raster;
  cv2_resize : raster → nat * nat → raster;
  cv2_resize_error : string;
  astype_float32_div_255 : raster → tensor;
  keras_fit : nat → list tensor → list nat
              → option TrainedModel * exn TrainedModel;
  tflite_convert : TrainedModel → exn (list Byte.byte);
}.

(** The files under [models/]: the five the script writes itself and the
    checkpoint Keras writes during the fit. *)
Record disk `{Environment} : Type := Disk {
  labels_json : option (gmap string (gmap string string));
  best_model_keras : option TrainedModel;
  model_keras : option TrainedModel;
  model_h5 : option TrainedModel;
  reverse_mapping_json : option (gmap string Z);
  model_tflite : option (list Byte.byte);
}.

(** The range of a signed 32-bit integer. *)
Definition int32 (x : Z) : Prop := -2147483648 ≤ x ≤ 2147483647.

#[global] Instance int32_dec x : Decision (int32 x).
Proof. unfold int32. apply _. Defined.

(** [np.array(labels, dtype=np.int32)] on a list of Python integers:
    NumPy 2 raises [OverflowError] on the first one outside the 32-bit
    range, and stores the list unchanged when there is none. *)
Definition np_array_int32 (labels : list Z) : exn (list Z) :=
  match list_find (λ x, ¬ int32 x) labels with
  | Some (_, x) =>
      Raise ("Python integer " +:+ pretty x +:+ " out of bounds for int32")
  | None => Return labels
  end.

Section pipeline.
Context `{Environment}.

(** The loop of [load_hasy_dataset], with the two lists it appends to. *)
Fixpoint load_rows (base_path : string) (rows : list hasy_row)
    (images : list tensor) (labels : list Z)
  : exn (list tensor * list Z) :=
  match rows with
  | [] => Return (images, labels)
  | row :: rows' =>
      let img_path := os_path_join base_path (path row) in
      if negb (os_path_exists img_path)
      then load_rows base_path rows' images labels
      else
        match cv2_imread img_path with
        | None => Raise cv2_resize_error
        | Some img =>
            let img := cv2_resize img (32, 32)%nat in
            let img := astype_float32_div_255 img in
            load_rows base_path rows'
              (images ++ [img]) (labels ++ [symbol_id (meta row)])
        end
  end.

Definition load_hasy_dataset (base_path : string)
  : exn (list tensor * list Z * list hasy_row) :=
  labels_csv ← pd_read_csv (os_path_join base_path "hasy-data-labels.csv");
  '(images, labels) ← load_rows base_path labels_csv [] [];
  labels ← np_array_int32 labels;
  Return (images, labels, labels_csv).

(** [train_model] counts the classes and hands over to Keras. *)
Definition train_model (images : list tensor) (labels : list nat)
  : option TrainedModel * exn TrainedModel :=
  let num_classes := length (np_unique (Z.of_nat <$> labels)) in
  keras_fit num_classes images labels.

(** [{str(k): int(v) for k, v in reverse_mapping.items()}]: the keys are
    distinct. *)
Definition reverse_mapping_items (reverse_mapping : gmap nat Z)
  : list (string * Z) :=
  (λ '(k, v), (pretty k, v)) <$> map_to_list reverse_mapping.

(** [save_all]: the two model files and the reverse mapping are written
    before the converter runs.  [model.save] and the writes to disk are
    taken to succeed; the converter may raise. *)
Definition save_all (model : TrainedModel) (reverse_mapping : gmap nat Z)
    (d : disk) : disk * exn unit :=
  let d :=
    {| labels_json := labels_json d;
       best_model_keras := best_model_keras d;
       model_keras := Some model;
       model_h5 := Some model;
       reverse_mapping_json := Some (dict_of (reverse_mapping_items reverse_mapping));
       model_tflite := model_tflite d |} in
  match tflite_convert model with
  | Raise e => (d, Raise e)
  | Return tflite_model =>
      ({| labels_json := labels_json d;
          best_model_keras := best_model_keras d;
          model_keras := model_keras d;
          model_h5 := model_h5 d;
          reverse_mapping_json := reverse_mapping_json d;
          model_tflite := Some tflite_model |},
       Return ())
  end.

(** [main], from the files already on disk to the files it leaves;
    [base_path] is [CONFIG["dataset_path"]].  The checkpoint is on disk as
    soon as the fit is over, whether it returned or raised. *)
Definition main (base_path : string) (d : disk) : disk * exn unit :=
  match load_hasy_dataset base_path with
  | Raise e => (d, Raise e)
  | Return (images, labels, labels_csv) =>
      let label_map := create_label_mapping (meta <$> labels_csv) in
      let d :=
        {| labels_json := Some label_map;
           best_model_keras := best_model_keras d;
           model_keras := model_keras d;
           model_h5 := model_h5 d;
           reverse_mapping_json := reverse_mapping_json d;
           model_tflite := model_tflite d |} in
      match remap_labels labels with
      | None => (d, Raise "KeyError")
      | Some (labels, _, reverse_mapping) =>
          let '(checkpoint, fitted) := train_model images labels in
          let d :=
            {| labels_json := labels_json d;
               best_model_keras :=
                 match checkpoint with
                 | Some saved => Some saved
                 | None => best_model_keras d
                 end;
               model_keras := model_keras d;
               model_h5 := model_h5 d;
               reverse_mapping_json := reverse_mapping_json d;
               model_tflite := model_tflite d |} in
          match fitted with
          | Raise e => (d, Raise e)
          | Return model => save_all model reverse_mapping d
          end
      end
  end.
End pipeline.

End TrainModel.

(** * Part I (continued): [web_app/app.py] *)

Module WebApp.

(** ** What the handler can observe of its libraries *)

(** An n-dimensional array: its shape and its elements in row-major order. *)
Record ndarray (A : Type) : Type := NdArray {
  shape : list nat;
  data : list A;
}.
#[global] Arguments NdArray {A} _ _.
#[global] Arguments shape {A} _.
#[global] Arguments data {A} _.

(** A computation that returns or raises, and records the arrays handed to
    [model.predict] on the way. *)
Record io (A : Type) : Type := IO {
  model_calls : list (ndarray float);
  outcome : exn A;
}.
#[global] Arguments IO {A} _ _.
#[global] Arguments model_calls {A} _.
#[global] Arguments outcome {A} _.

#[global] Instance io_ret : MRet io := λ A a, IO [] (Return a).
#[global] Instance io_bind : MBind io := λ A B k m,
  match outcome m with
  | Raise e => IO (model_calls m) (Raise e)
  | Return a => IO (model_calls m ++ model_calls (k a)) (outcome (k a))
  end.

(** A call that touches no model. *)
Definition lift {A} (r : exn A) : io A := IO [] r.

(** Pillow, NumPy's standard deviation: what the code calls and does not
    define.  [resize_L_array] is Pillow's contract for an image converted to
    mode [L] and resized to [(w, h)]: [np.array] of it is an [h] by [w]
    array of bytes. *)
Class Libraries : Type := {
  Image : Type;
  Image_open : list Byte.byte → exn Image;
  Image_convert : Image → string → exn Image;
  Image_resize : Image → nat * nat → exn Image;
  np_array : Image → ndarray Byte.byte;
  np_std : ndarray float → float;
  resize_L_array : ∀ img img' img'' w h,
    Image_convert img "L" = Return img' →
    Image_resize img' (w, h) = Return img'' →
    shape (np_array img'') = [h; w]
    ∧ length (data (np_array img'')) = (h * w)%nat;
}.

(** A loaded Keras model: [model.predict(x, verbose=0)] returns the rows of
    the prediction array or raises. *)
Record Model : Type := {
  model_predict : ndarray float → exn (list (list float));
}.

Definition call_predict (model : Model) (x : ndarray float)
  : io (list (list float)) :=
  IO [x] (model_predict model x).

(** ** NumPy operations used by the handler *)

Definition float_of_nat (n : nat) : float :=
  PrimFloat.of_uint63 (Uint63.of_Z (Z.of_nat n)).

Definition float_of_byte (b : Byte.byte) : float :=
  PrimFloat.of_uint63 (Uint63.of_Z (Z.of_N (Byte.to_N b))).

(** [a / x] for a [uint8] array and a Python float. *)
Definition np_truediv (a : ndarray Byte.byte) (x : float) : ndarray float :=
  NdArray (shape a) ((λ p, PrimFloat.div (float_of_byte p) x) <$> data a).

(** [a.reshape(new_shape)]: [ValueError] when the sizes disagree. *)
Definition np_reshape {A} (a : ndarray A) (new_shape : list nat)
  : exn (ndarray A) :=
  if bool_decide (foldr Nat.mul 1%nat new_shape = length (data a))
  then Return (NdArray new_shape (data a))
  else Raise "cannot reshape array".

(** [a.squeeze()]: drop the axes of length one. *)
Definition np_squeeze {A} (a : ndarray A) : ndarray A :=
  NdArray (filter (λ n, n ≠ 1%nat) (shape a)) (data a).

(** [a < x], elementwise. *)
Definition np_less (a : ndarray float) (x : float) : ndarray bool :=
  NdArray (shape a) ((λ v, PrimFloat.ltb v x) <$> data a).

(** [np.mean] of a boolean array: the count of [True] over the size, both
    exact in binary64. *)
Definition np_mean_bool (a : ndarray bool) : float :=
  PrimFloat.div (float_of_nat (length (filter (λ b, b = true) (data a))))
                (float_of_nat (length (data a))).

(** [np.argmax] on a one-dimensional float array: the first position of the
    maximum, a NaN counting as maximal; [ValueError] on an empty array. *)
Fixpoint argmax_from (mp : float) (max_ind i : nat) (ip : list float) : nat :=
  match ip with
  | [] => max_ind
  | v :: ip' =>
      if negb (PrimFloat.leb v mp)
      then if PrimFloat.is_nan v then i else argmax_from v i (S i) ip'
      else argmax_from mp max_ind (S i) ip'
  end.

Definition np_argmax (a : list float) : exn nat :=
  match a with
  | [] => Raise "attempt to get argmax of an empty sequence"
  | v :: a' => Return (if PrimFloat.is_nan v then 0%nat else argmax_from v 0 1 a')
  end.

(** [xs[i]]: [IndexError] past the end. *)
Definition getitem {A} (xs : list A) (i : nat) : exn A :=
  match xs !! i with
  | Some x => Return x
  | None => Raise "index out of bounds"
  end.

(** ** Configuration *)

Definition CONFIDENCE_THRESHOLD : float := 0.85.
Definition MIN_FOREGROUND_FRACTION : float := 0.02.
Definition MAX_FOREGROUND_FRACTION : float := 0.60.
Definition MIN_STD_DEV : float := 0.05.

(** ** Requests and responses *)

Record FileStorage : Type := {
  filename : string;
  read : list Byte.byte;
}.

Record Request : Type := {
  files : gmap string FileStorage;
}.

Inductive json : Type :=
  | JBool (b : bool)
  | JString (s : string)
  | JFloat (x : float)
  | JInt (n : Z).

(** The body, in the order of the dict display, and the status code. *)
Record response : Type := Response {
  body : list (string * json);
  status_code : nat;
}.

Definition jsonify (d : list (string * json)) : list (string * json) := d.

(** ** Module globals and start-up

    [startup] takes the outcomes of [load_model(MODEL_PATH, compile=False)]
    and of opening and parsing [LABELS_PATH]; each [except] clause resets
    its global. *)
Record globals : Type := Globals {
  model : option Model;
  labels : gmap string (gmap string string);
}.

Definition startup (loaded_model : exn Model)
    (loaded_labels : exn (gmap string (gmap string string))) : globals :=
  {| model := match loaded_model with
              | Return m => Some m
              | Raise _ => None
              end;
     labels := match loaded_labels with
               | Return l => l
               | Raise _ => ∅
               end |}.

Section handlers.
Context `{Libraries}.

(** ** [preprocess_image] *)
Definition preprocess_image (image_file : FileStorage)
  : exn (ndarray float) :=
  match
    img ← Image_open (read image_file);
    img ← Image_convert img "L";
    img ← Image_resize img (32, 32)%nat;
    let img_array := np_truediv (np_array img) 255 in
    np_reshape img_array [1; 32; 32; 1]%nat
  with
  | Return img_array => Return img_array
  | Raise e => Raise ("Error preprocessing image: " +:+ e)
  end.

(** ** [predict] *)

(** The condition of the pre-filter [if]. *)
Definition prefilter_rejects (std_dev foreground_fraction : float) : bool :=
  PrimFloat.ltb std_dev MIN_STD_DEV
  || PrimFloat.ltb foreground_fraction MIN_FOREGROUND_FRACTION
  || PrimFloat.ltb MAX_FOREGROUND_FRACTION foreground_fraction.

Definition unrecognized : response :=
  Response
    (jsonify [ ("success", JBool true);
               ("status", JString "unrecognized");
               ("message", JString "No math symbol recognised.") ])
    200.

(** The body of the [try]. *)
Definition predict_try (g : globals) (request : Request) : io response :=
  match model g with
  | None =>
      mret (Response
              (jsonify [ ("success", JBool false);
                         ("error", JString "Model not loaded. Please check server logs.") ])
              500)
  | Some model =>
      match files request !! "image" with
      | None =>
          mret (Response
                  (jsonify [ ("success", JBool false);
                             ("error", JString "No image provided in the request.") ])
                  400)
      | Some file =>
          if bool_decide (filename file = "") then
            mret (Response
                    (jsonify [ ("success", JBool false);
                               ("error", JString "No image provided in the request.") ])
                    400)
          else
            img_array ← lift (preprocess_image file);
            let flat := np_squeeze img_array in
            let foreground_fraction := np_mean_bool (np_less flat 0.85) in
            let std_dev := np_std flat in
            if prefilter_rejects std_dev foreground_fraction then
              mret unrecognized
            else
              predictions ← call_predict model img_array;
              row ← lift (getitem predictions 0);
              top_idx ← lift (np_argmax row);
              top_confidence ← lift (getitem row top_idx);
              match labels g !! pretty top_idx with
              | None =>
                  mret (Response
                          (jsonify [ ("success", JBool false);
                                     ("status", JString "data_error");
                                     ("error", JString ("Label file mismatch. Index "
                                                        +:+ pretty top_idx
                                                        +:+ " not found.")) ])
                          500)
              | Some symbol_info =>
                  let recognized_unicode := default "" (symbol_info !! "unicode") in
                  let recognized_latex := default "" (symbol_info !! "latex") in
                  if PrimFloat.leb CONFIDENCE_THRESHOLD top_confidence then
                    if bool_decide (recognized_unicode = "")
                       && bool_decide (recognized_latex = "")
                    then
                      mret (Response
                              (jsonify [ ("success", JBool false);
                                         ("status", JString "data_error");
                                         ("error", JString "Label found, but both Unicode and LaTeX strings were empty.") ])
                              500)
                    else
                      mret (Response
                              (jsonify [ ("success", JBool true);
                                         ("status", JString "recognized");
                                         ("symbol", JString recognized_unicode);
                                         ("unicode", JString recognized_unicode);
                                         ("latex", JString recognized_latex);
                                         ("confidence", JFloat (PrimFloat.mul top_confidence 100)) ])
                              200)
                  else
                    mret unrecognized
              end
      end
  end.

(** The handler: the [try] body, any exception turned into the generic
    500 response. *)
Definition predict (g : globals) (request : Request)
  : list (ndarray float) * response :=
  let r := predict_try g request in
  (model_calls r,
   match outcome r with
   | Return resp => resp
   | Raise e =>
       Response
         (jsonify [ ("success", JBool false);
                    ("error", JString ("An internal server error occurred: " +:+ e)) ])
         500
   end).
End handlers.

(** ** [health] *)
Definition health (g : globals) : response :=
  Response
    (jsonify [ ("status", JString "healthy");
               ("model_loaded", JBool (bool_decide (model g ≠ None)));
               ("labels_loaded", JBool (bool_decide (0 < size (labels g))%nat));
               ("num_classes", JInt (Z.of_nat (size (labels g)))) ])
    200.

End WebApp.

(** * Part I (end): vocabulary of the statements and a concrete service *)

Module Statements.
Import WebApp.

(** The service has a model, the request carries a named file that
    preprocesses to [img_array] and passes the pre-filter, and the model
    answers class [top_idx] with confidence [top_confidence]. *)
Definition model_answers `{Libraries} (g : globals) (request : Request)
    (img_array : ndarray float) (top_idx : nat) (top_confidence : float)
  : Prop :=
  ∃ m file predictions row,
    model g = Some m
    ∧ files request !! "image" = Some file
    ∧ filename file ≠ ""
    ∧ preprocess_image file = Return img_array
    ∧ prefilter_rejects
        (np_std (np_squeeze img_array))
        (np_mean_bool (np_less (np_squeeze img_array) 0.85)) = false
    ∧ model_predict m img_array = Return predictions
    ∧ predictions !! 0%nat = Some row
    ∧ np_argmax row = Return top_idx
    ∧ row !! top_idx = Some top_confidence.

Definition label_mismatch (top_idx : nat) : response :=
  Response
    (jsonify [ ("success", JBool false);
               ("status", JString "data_error");
               ("error", JString ("Label file mismatch. Index "
                                  +:+ pretty top_idx +:+ " not found.")) ])
    500.

Definition data_error_both_empty : response :=
  Response
    (jsonify [ ("success", JBool false);
               ("status", JString "data_error");
               ("error", JString "Label found, but both Unicode and LaTeX strings were empty.") ])
    500.
(** The other responses of the [/predict] handler. *)
Definition model_not_loaded : response :=
  Response
    (jsonify [ ("success", JBool false);
               ("error", JString "Model not loaded. Please check server logs.") ])
    500.

Definition no_image_provided : response :=
  Response
    (jsonify [ ("success", JBool false);
               ("error", JString "No image provided in the request.") ])
    400.

Definition internal_error (e : string) : response :=
  Response
    (jsonify [ ("success", JBool false);
               ("error", JString ("An internal server error occurred: " +:+ e)) ])
    500.

Definition recognized (recognized_unicode recognized_latex : string)
    (top_confidence : float) : response :=
  Response
    (jsonify [ ("success", JBool true);
               ("status", JString "recognized");
               ("symbol", JString recognized_unicode);
               ("unicode", JString recognized_unicode);
               ("latex", JString recognized_latex);
               ("confidence", JFloat (PrimFloat.mul top_confidence 100)) ])
    200.

(** The request names an image file, with a model loaded. *)
Definition names_image (g : globals) (request : Request)
    (m : Model) (file : FileStorage) : Prop :=
  model g = Some m
  ∧ files request !! "image" = Some file
  ∧ filename file ≠ "".

(** An array as [preprocess_image] makes them. *)
Definition well_formed_input (a : ndarray float) : Prop :=
  shape a = [1; 32; 32; 1]%nat
  ∧ length (data a) = 1024%nat
  ∧ Forall (λ v, PrimFloat.leb 0 v = true ∧ PrimFloat.leb v 1 = true) (data a).

(** The image file of a row of the label table is on disk. *)
Definition on_disk `{TrainModel.Environment}
    (base_path : string) (row : TrainModel.hasy_row) : Prop :=
  TrainModel.os_path_exists
    (TrainModel.os_path_join base_path (TrainModel.path row)) = true.

#[global] Instance on_disk_dec `{TrainModel.Environment} base_path row :
  Decision (on_disk base_path row).
Proof. unfold on_disk. apply _. Defined.
End Statements.

(** A small instance of the libraries, a model and a request, on which the
    handlers can be run. *)
Module Sample.
Import WebApp.

(** A two-pass standard deviation summing from left to right. *)
Definition sum_floats (xs : list float) : float :=
  foldl PrimFloat.add 0%float xs.

Definition two_pass_std (a : ndarray float) : float :=
  let n := float_of_nat (length (data a)) in
  let mean := PrimFloat.div (sum_floats (data a)) n in
  let sq := (λ x, let d := PrimFloat.sub x mean in PrimFloat.mul d d) <$> data a in
  PrimFloat.sqrt (PrimFloat.div (sum_floats sq) n).

(** Images are grey rasters; an upload is its own raster (one row), and
    resizing samples it cyclically. *)
Definition open_raster (b : list Byte.byte) : exn (ndarray Byte.byte) :=
  match b with
  | [] => Raise "cannot identify image file"
  | _ => Return (NdArray [1%nat; length b] b)
  end.

Definition resize_raster (img : ndarray Byte.byte) (size : nat * nat)
  : exn (ndarray Byte.byte) :=
  let '(w, h) := size in
  Return (NdArray [h; w]
            ((λ i, default Byte.x00 (data img !! (i mod length (data img))%nat))
               <$> seq 0 (h * w))).

#[global, refine] Instance libraries : Libraries := {|
  Image := ndarray Byte.byte;
  Image_open := open_raster;
  Image_convert := λ img _, Return img;
  Image_resize := resize_raster;
  np_array := λ img, img;
  np_std := two_pass_std;
|}.
Proof.
  intros img img' img'' w h _ [= <-]. simpl.
  by rewrite length_fmap, length_seq.
Defined.

(** 924 white pixels followed by 100 black ones. *)
Definition upload : FileStorage :=
  {| filename := "alpha.png";
     read := replicate 924 Byte.xff ++ replicate 100 Byte.x00 |}.

Definition request : Request := {| files := dict_of [("image", upload)] |}.

(** A model that answers class 1 with confidence 0.9375. *)
Definition classifier : Model :=
  {| model_predict := λ _, Return [[0.03125; 0.9375; 0.03125]%float] |}.

Definition alpha_labels : gmap string (gmap string string) :=
  dict_of [ ("1", dict_of [("latex", "\alpha"); ("unicode", "α")]) ].

Definition service : globals := Globals (Some classifier) alpha_labels.

(** The same model with an empty label table. *)
Definition unlabelled_service : globals := Globals (Some classifier) ∅.

(** What [preprocess_image] makes of [upload]. *)
Definition img_array : ndarray float :=
  NdArray [1; 32; 32; 1]%nat (replicate 924 1%float ++ replicate 100 0%float).

(** An all-white upload. *)
Definition blank_request : Request :=
  {| files := dict_of [("image", {| filename := "blank.png";
                                    read := replicate 1024 Byte.xff |})] |}.

(** Label tables: one with a missing LaTeX cell, one with an empty one. *)
Definition labels_csv : list TrainModel.row :=
  [ TrainModel.Row 31 (TrainModel.Str "\alpha") None;
    TrainModel.Row 1 TrainModel.NaN None ].

Definition labels_csv_empty_latex : list TrainModel.row :=
  [ TrainModel.Row 1 (TrainModel.Str "") None ].
(** Requests with no file, with an empty upload, and a model that raises. *)
Definition empty_request : Request := {| files := ∅ |}.

Definition empty_upload_request : Request :=
  {| files := dict_of [("image", {| filename := "empty.png"; read := [] |})] |}.

Definition failing_classifier : Model :=
  {| model_predict := λ _, Raise "Graph execution error" |}.

(** A model whose only output is not a number, with a label for class 0. *)
Definition nan_classifier : Model :=
  {| model_predict := λ _, Return [[PrimFloat.nan]] |}.

Definition nan_service : globals :=
  Globals (Some nan_classifier)
          (dict_of [ ("0", dict_of [("latex", "\alpha"); ("unicode", "α")]) ]).

(** Two dataset directories.  Under [data], three rows, the image of the
    second one not on disk; under [broken], a second row whose file OpenCV
    cannot decode.  Keras is reduced to recording the class count, which it
    also leaves as checkpoint. *)
Definition hasy_table : list TrainModel.hasy_row :=
  [ TrainModel.HasyRow "a.png" (TrainModel.Row 31 (TrainModel.Str "\alpha") None);
    TrainModel.HasyRow "missing.png" (TrainModel.Row 90 (TrainModel.Str "\beta") None);
    TrainModel.HasyRow "b.png" (TrainModel.Row 7 (TrainModel.Str "A") None) ].

Definition broken_table : list TrainModel.hasy_row :=
  [ TrainModel.HasyRow "a.png" (TrainModel.Row 31 (TrainModel.Str "\alpha") None);
    TrainModel.HasyRow "corrupt.png" (TrainModel.Row 5 TrainModel.NaN None) ].

#[global] Instance environment : TrainModel.Environment := {|
  TrainModel.raster := list Byte.byte;
  TrainModel.tensor := list Byte.byte;
  TrainModel.TrainedModel := nat;
  TrainModel.os_path_join := λ a b, a +:+ "/" +:+ b;
  TrainModel.os_path_exists := λ p,
    bool_decide (p ∈ ["data/a.png"; "data/b.png";
                      "broken/a.png"; "broken/corrupt.png"]);
  TrainModel.pd_read_csv := λ p,
    if bool_decide (p = "data/hasy-data-labels.csv") then Return hasy_table
    else if bool_decide (p = "broken/hasy-data-labels.csv")
         then Return broken_table
         else Raise ("[Errno 2] No such file or directory: '" +:+ p +:+ "'");
  TrainModel.cv2_imread := λ p,
    if bool_decide (p ∈ ["data/a.png"; "data/b.png"; "broken/a.png"])
    then Some [Byte.xff] else None;
  TrainModel.cv2_resize := λ img _, img;
  TrainModel.cv2_resize_error :=
    "(-215:Assertion failed) !ssize.empty() in function 'resize'";
  TrainModel.astype_float32_div_255 := λ img, img;
  TrainModel.keras_fit := λ num_classes _ _,
    (Some num_classes, Return num_classes);
  TrainModel.tflite_convert := λ _, Return [];
|}.

Definition empty_disk : TrainModel.disk :=
  {| TrainModel.labels_json := None;
     TrainModel.best_model_keras := None;
     TrainModel.model_keras := None;
     TrainModel.model_h5 := None;
     TrainModel.reverse_mapping_json := None;
     TrainModel.model_tflite := None |}.

End Sample.

(** * Part II: properties *)

Example remap_labels_sample :
  TrainModel.remap_labels [31; 7; 31; 90; 7] =
    Some ([1; 0; 1; 2; 0]%nat,
          dict_of [(7, 0%nat); (31, 1%nat); (90, 2%nat)],
          dict_of [(0%nat, 7); (1%nat, 31); (2%nat, 90)]).
Proof. vm_compute. reflexivity. Qed.

(** ** Dict comprehensions *)

Section dict_of.
Context `{Countable K} {V : Type}.
Implicit Types (items : list (K * V)) (d : gmap K V).

Lemma foldl_insert_lookup items d k v :
  NoDup items.*1 →
  (∀ k', k' ∈ items.*1 → d !! k' = None) →
  foldl (λ d kv, <[kv.1 := kv.2]> d) d items !! k = Some v
  ↔ (k, v) ∈ items ∨ d !! k = Some v.
Proof.
  revert d. induction items as [|[k0 v0] items IH]; intros d Hnd Hfresh; simpl.
  - rewrite elem_of_nil. tauto.
  - apply NoDup_cons in Hnd as [Hk0 Hnd]. rewrite IH; [|done|].
    + rewrite elem_of_cons, lookup_insert. simpl. case_decide as Hk.
      * subst k0. rewrite (Hfresh k) by (simpl; left).
        split.
        -- intros [Hin|Heq]; [|left; left; congruence].
           exfalso. apply Hk0. apply list_elem_of_fmap. by exists (k, v).
        -- intros [[Heq|Hin]|?]; [right; congruence| |done].
           exfalso. apply Hk0. apply list_elem_of_fmap. by exists (k, v).
      * split; [intros [?|?]; auto|].
        intros [[Heq|?]|?]; auto. congruence.
    + intros k' Hk'. rewrite lookup_insert_ne.
      * apply Hfresh. simpl. by right.
      * simpl. intros ->. done.
Qed.

Lemma foldl_insert_size items d :
  NoDup items.*1 →
  (∀ k', k' ∈ items.*1 → d !! k' = None) →
  size (foldl (λ d kv, <[kv.1 := kv.2]> d) d items) = (size d + length items)%nat.
Proof.
  revert d. induction items as [|[k0 v0] items IH]; intros d Hnd Hfresh; simpl.
  - lia.
  - apply NoDup_cons in Hnd as [Hk0 Hnd]. rewrite IH; [|done|].
    + rewrite map_size_insert_None; [lia|]. apply Hfresh. simpl. left.
    + intros k' Hk'. rewrite lookup_insert_ne.
      * apply Hfresh. simpl. by right.
      * simpl. intros ->. done.
Qed.

Lemma dict_of_lookup items k v :
  NoDup items.*1 → dict_of items !! k = Some v ↔ (k, v) ∈ items.
Proof.
  intros Hnd. unfold dict_of. rewrite foldl_insert_lookup; [|done|].
  - rewrite lookup_empty. split; [intros [?|?]; done|by left].
  - intros. apply lookup_empty.
Qed.

Lemma dict_of_size items :
  NoDup items.*1 → size (dict_of items) = length items.
Proof.
  intros Hnd. unfold dict_of. rewrite foldl_insert_size; [|done|].
  - by rewrite map_size_empty.
  - intros. apply lookup_empty.
Qed.
End dict_of.

(** ** [np.unique]: strictly ascending, same elements *)

Section np_unique.
Import TrainModel.

Lemma mask_changes_spec prev ar :
  Sorted Z.le (prev :: ar) →
  StronglySorted Z.lt (prev :: mask_changes prev ar)
  ∧ ∀ y, y ∈ prev :: mask_changes prev ar ↔ y ∈ prev :: ar.
Proof.
  revert prev. induction ar as [|x ar IH]; intros prev Hs; simpl.
  - split; [|done]. repeat constructor.
  - apply Sorted_inv in Hs as [Hs Hhd]. apply HdRel_inv in Hhd.
    destruct (IH x Hs) as [Hss Hel]. case_decide as Hne.
    + split.
      * constructor; [done|].
        apply StronglySorted_inv in Hss as [_ Hall].
        constructor; [lia|]. eapply Forall_impl; [exact Hall|].
        simpl. intros; lia.
      * intros y. rewrite !(elem_of_cons _ y prev). by rewrite Hel.
    + subst x. split; [done|].
      intros y. rewrite Hel. rewrite !elem_of_cons. tauto.
Qed.

Lemma np_unique_sorted ar : StronglySorted Z.lt (np_unique ar).
Proof.
  unfold np_unique. pose proof (Sorted_merge_sort Z.le ar) as Hs.
  destruct (merge_sort Z.le ar) as [|x s]; [constructor|].
  by apply mask_changes_spec.
Qed.

Lemma np_unique_elem_of ar y : y ∈ np_unique ar ↔ y ∈ ar.
Proof.
  unfold np_unique. pose proof (Sorted_merge_sort Z.le ar) as Hs.
  rewrite <- (merge_sort_Permutation Z.le ar) at 2.
  destruct (merge_sort Z.le ar) as [|x s]; [done|].
  by apply mask_changes_spec.
Qed.

Lemma StronglySorted_lt_NoDup (l : list Z) : StronglySorted Z.lt l → NoDup l.
Proof.
  induction 1 as [|x l _ IH Hall]; constructor; [|done].
  intros Hin. rewrite Forall_forall in Hall. specialize (Hall _ Hin). lia.
Qed.

Lemma np_unique_NoDup ar : NoDup (np_unique ar).
Proof. apply StronglySorted_lt_NoDup, np_unique_sorted. Qed.

(** The number of distinct values of [ar]. *)
Lemma np_unique_length ar :
  length (np_unique ar) = size (list_to_set ar : gset Z).
Proof.
  rewrite <- (size_list_to_set (C:=gset Z)) by apply np_unique_NoDup.
  f_equal. apply set_eq. intros y.
  rewrite !elem_of_list_to_set. apply np_unique_elem_of.
Qed.

(** In a strictly ascending list the position of an element is the number
    of elements below it. *)
Lemma StronglySorted_lt_rank (l : list Z) i x :
  StronglySorted Z.lt l → l !! i = Some x →
  size (filter (λ y, y < x) (list_to_set l : gset Z)) = i.
Proof.
  intros Hs Hi.
  assert (filter (λ y, y < x) (list_to_set l : gset Z)
          = list_to_set (take i l)) as ->.
  { apply set_eq. intros y.
    rewrite elem_of_filter, !elem_of_list_to_set.
    rewrite <- (take_drop_middle l i x Hi) in Hs |- * at 1.
    apply StronglySorted_app in Hs as (Hlr & Hl & Hr).
    apply StronglySorted_inv in Hr as [_ Hr]. rewrite Forall_forall in Hr.
    rewrite elem_of_app, elem_of_cons. split.
    - intros [Hlt [?|[->|Hin]]]; [done|lia|]. specialize (Hr _ Hin). lia.
    - intros Hin. split; [|by left]. apply (Hlr y x); [done|left]. }
  rewrite size_list_to_set.
  - rewrite length_take. apply lookup_lt_Some in Hi. lia.
  - apply StronglySorted_lt_NoDup.
    rewrite <- (take_drop i l) in Hs. by apply StronglySorted_app_1_l in Hs.
Qed.
End np_unique.

(** ** [remap_labels] *)

Section remap_labels.
Import TrainModel.

Lemma enumerate_swap_elem_of {A} (l : list A) (x : A) (i : nat) :
  (x, i) ∈ (λ '(new, old), (old, new)) <$> enumerate l ↔ l !! i = Some x.
Proof.
  unfold enumerate. rewrite list_elem_of_fmap. split.
  - intros ([j y] & [= -> ->] & Hin).
    apply list_elem_of_lookup in Hin as [k Hk].
    rewrite list_lookup_imap in Hk.
    destruct (l !! k) eqn:Hlk; simplify_eq/=. done.
  - intros Hi. exists (i, x). split; [done|].
    apply list_elem_of_lookup. exists i.
    by rewrite list_lookup_imap, Hi.
Qed.

Lemma enumerate_elem_of {A} (l : list A) (x : A) (i : nat) :
  (i, x) ∈ (λ '(new, old), (new, old)) <$> enumerate l ↔ l !! i = Some x.
Proof.
  unfold enumerate. rewrite list_elem_of_fmap. split.
  - intros ([j y] & [= -> ->] & Hin).
    apply list_elem_of_lookup in Hin as [k Hk].
    rewrite list_lookup_imap in Hk.
    destruct (l !! k) eqn:Hlk; simplify_eq/=. done.
  - intros Hi. exists (i, x). split; [done|].
    apply list_elem_of_lookup. exists i.
    by rewrite list_lookup_imap, Hi.
Qed.

Lemma enumerate_swap_keys {A} (l : list A) :
  ((λ '(new, old), (old, new)) <$> enumerate l).*1 = l.
Proof.
  apply list_eq. intros i. unfold enumerate.
  rewrite !list_lookup_fmap, list_lookup_imap. by destruct (l !! i).
Qed.

Lemma enumerate_keys {A} (l : list A) :
  ((λ '(new, old), (new, old)) <$> enumerate l).*1 = seq 0 (length l).
Proof.
  apply list_eq. intros i. unfold enumerate.
  rewrite !list_lookup_fmap, list_lookup_imap.
  destruct (l !! i) eqn:Hi; simpl.
  - symmetry. apply lookup_seq. split; [done|]. by eapply lookup_lt_Some.
  - symmetry. apply lookup_seq_ge. rewrite lookup_ge_None in Hi. lia.
Qed.

Lemma length_enumerate {A} (l : list A) : length (enumerate l) = length l.
Proof. unfold enumerate. by rewrite length_imap. Qed.

(** The two tables, read off the sorted array of distinct values. *)
Lemma remap_labels_tables labels new_labels forward reverse :
  remap_labels labels = Some (new_labels, forward, reverse) →
  (∀ x i, forward !! x = Some i ↔ np_unique labels !! i = Some x)
  ∧ (∀ i x, reverse !! i = Some x ↔ np_unique labels !! i = Some x)
  ∧ size forward = length (np_unique labels)
  ∧ size reverse = length (np_unique labels)
  ∧ Forall2 (λ l n, forward !! l = Some n) labels new_labels.
Proof.
  unfold remap_labels. intros Hr.
  apply bind_Some in Hr as (nl & Hnl & [= <- <- <-]).
  split_and!.
  - intros x i. rewrite dict_of_lookup.
    + apply enumerate_swap_elem_of.
    + rewrite enumerate_swap_keys. apply np_unique_NoDup.
  - intros i x. rewrite dict_of_lookup.
    + apply enumerate_elem_of.
    + rewrite enumerate_keys. apply NoDup_seq.
  - rewrite dict_of_size.
    + by rewrite length_fmap, length_enumerate.
    + rewrite enumerate_swap_keys. apply np_unique_NoDup.
  - rewrite dict_of_size.
    + by rewrite length_fmap, length_enumerate.
    + rewrite enumerate_keys. apply NoDup_seq.
  - by apply mapM_Some.
Qed.

(** No label is missing from [forward]: the comprehension never raises. *)
Lemma remap_labels_returns labels : is_Some (remap_labels labels).
Proof.
  unfold remap_labels.
  set (forward := dict_of ((λ '(new, old), (old, new)) <$> enumerate (np_unique labels))).
  assert (is_Some (mapM (λ l, forward !! l) labels)) as [nl Hnl]; [|by rewrite Hnl].
  apply mapM_is_Some, Forall_forall. intros x Hx. simpl.
  apply np_unique_elem_of, list_elem_of_lookup in Hx as [i Hi].
  exists i. unfold forward. rewrite dict_of_lookup.
  - by apply enumerate_swap_elem_of.
  - rewrite enumerate_swap_keys. apply np_unique_NoDup.
Qed.
End remap_labels.

(** C1. For every sequence of raw identifiers [remap_labels] returns, and the
    forward and reverse tables it returns are inverse to each other:
    [reverse] undoes [forward] on every observed identifier, [forward] undoes
    [reverse] on every position below the number [K] of distinct identifiers,
    the domain of [forward] is the set of observed identifiers, the domain of
    [reverse] is [0..K-1], and both tables have exactly [K] entries. *)
Theorem remap_labels_forward_reverse_inverse (labels : list Z) :
  let K := size (list_to_set labels : gset Z) in
  ∃ new_labels forward reverse,
    TrainModel.remap_labels labels = Some (new_labels, forward, reverse)
    ∧ (∀ x, x ∈ labels →
         ∃ i, forward !! x = Some i ∧ reverse !! i = Some x)
    ∧ (∀ i, (i < K)%nat →
         ∃ x, reverse !! i = Some x ∧ forward !! x = Some i)
    ∧ (∀ x i, forward !! x = Some i ↔ reverse !! i = Some x)
    ∧ dom forward = list_to_set labels
    ∧ (∀ i, i ∈ dom reverse ↔ (i < K)%nat)
    ∧ size forward = K
    ∧ size reverse = K.
Proof.
  intros K.
  destruct (remap_labels_returns labels) as [[[nl fwd] rev] Hr].
  exists nl, fwd, rev. split; [done|].
  destruct (remap_labels_tables _ _ _ _ Hr) as (Hf & Hv & Hsf & Hsv & _).
  unfold K. rewrite <- np_unique_length.
  assert (∀ x i, fwd !! x = Some i ↔ rev !! i = Some x) as Hinv.
  { intros x i. by rewrite Hf, Hv. }
  split_and!; [| | done | | | done | done].
  - intros x Hx.
    apply np_unique_elem_of, list_elem_of_lookup in Hx as [i Hi].
    exists i. by rewrite Hf, Hv.
  - intros i Hi. apply lookup_lt_is_Some in Hi as [x Hx].
    exists x. by rewrite Hf, Hv.
  - apply set_eq. intros x.
    rewrite elem_of_dom, elem_of_list_to_set, <- np_unique_elem_of.
    rewrite list_elem_of_lookup. unfold is_Some. by setoid_rewrite Hf.
  - intros i. rewrite elem_of_dom, <- lookup_lt_is_Some.
    unfold is_Some. by setoid_rewrite Hv.
Qed.

(** C5. [remap_labels] ranks the distinct identifiers in ascending order: an
    observed identifier is sent to the number of distinct observed identifiers
    strictly below it, so the [k]-th smallest goes to [k]; the positions used
    are exactly [0..K-1]; and the returned labels are the input labels with
    the forward table applied element by element, in the same order and of
    the same length. *)
Theorem remap_labels_ranks_sorted_distinct (labels : list Z) :
  let K := size (list_to_set labels : gset Z) in
  ∃ new_labels forward reverse,
    TrainModel.remap_labels labels = Some (new_labels, forward, reverse)
    ∧ (∀ x, x ∈ labels →
         forward !! x
         = Some (size (filter (λ y, y < x) (list_to_set labels : gset Z))))
    ∧ (∀ x i, forward !! x = Some i → x ∈ labels ∧ (i < K)%nat)
    ∧ (∀ i, (i < K)%nat → ∃ x, forward !! x = Some i)
    ∧ (∀ x y i j, forward !! x = Some i → forward !! y = Some j →
         x < y ↔ (i < j)%nat)
    ∧ (λ l, forward !! l) <$> labels = Some <$> new_labels
    ∧ length new_labels = length labels.
Proof.
  intros K.
  destruct (remap_labels_returns labels) as [[[nl fwd] rev] Hr].
  exists nl, fwd, rev. split; [done|].
  destruct (remap_labels_tables _ _ _ _ Hr) as (Hf & _ & _ & _ & Hnl).
  pose proof (np_unique_sorted labels) as Hs.
  assert (list_to_set (TrainModel.np_unique labels) = (list_to_set labels : gset Z))
    as Hset.
  { apply set_eq. intros y. rewrite !elem_of_list_to_set.
    apply np_unique_elem_of. }
  unfold K. rewrite <- np_unique_length.
  split_and!.
  - intros x Hx.
    apply np_unique_elem_of, list_elem_of_lookup in Hx as [i Hi].
    rewrite <- Hset, (StronglySorted_lt_rank _ i x Hs Hi). by apply Hf.
  - intros x i Hxi. apply Hf in Hxi. split.
    + apply np_unique_elem_of, list_elem_of_lookup. by exists i.
    + by eapply lookup_lt_Some.
  - intros i Hi. apply lookup_lt_is_Some in Hi as [x Hx].
    exists x. by apply Hf.
  - intros x y i j Hx Hy. apply Hf in Hx, Hy.
    destruct (decide (i < j)%nat) as [Hij|Hij].
    + split; [done|]. intros _.
      rewrite <- (take_drop_middle _ j y Hy) in Hs.
      apply StronglySorted_app in Hs as (Hlr & _ & _).
      apply (Hlr x y); [|left].
      apply list_elem_of_lookup. exists i. by rewrite lookup_take_lt.
    + split; [|done]. intros Hxy. exfalso.
      destruct (decide (i = j)) as [->|Hne]; [simplify_eq; lia|].
      assert (j < i)%nat as Hji by lia.
      rewrite <- (take_drop_middle _ i x Hx) in Hs.
      apply StronglySorted_app in Hs as (Hlr & _ & _).
      assert (y < x); [|lia].
      apply (Hlr y x); [|left].
      apply list_elem_of_lookup. exists j. by rewrite lookup_take_lt.
  - clear -Hnl. induction Hnl as [|l n ls ns Hl _ IH]; [done|].
    csimpl. by rewrite Hl, IH.
  - symmetry. by eapply Forall2_length.
Qed.

Example create_label_mapping_sample :
  TrainModel.create_label_mapping
    [ TrainModel.Row 31 (TrainModel.Str "\alpha") None;
      TrainModel.Row 7 (TrainModel.Str "A") (Some TrainModel.NaN);
      TrainModel.Row 31 (TrainModel.Str "\beta") (Some (TrainModel.Str "b")) ]
  = dict_of [ ("31", dict_of [("latex", "\alpha"); ("unicode", "α")]);
              ("7", dict_of [("latex", "A"); ("unicode", "A")]) ].
Proof. vm_compute. reflexivity. Qed.

(** ** [create_label_mapping] *)

Section create_label_mapping.
Import TrainModel.
Implicit Types (label_map : gmap string (gmap string string)) (r : row).

(** After the loop a key holds what it held before, or else the entry of
    the first row carrying it. *)
Lemma foldl_add_row_lookup labels_csv label_map key :
  foldl add_row label_map labels_csv !! key
  = match label_map !! key with
    | Some entry => Some entry
    | None =>
        (λ ir, make_entry ir.2)
          <$> list_find (λ r, pretty (symbol_id r) = key) labels_csv
    end.
Proof.
  revert label_map.
  induction labels_csv as [|r rows IH]; intros label_map; simpl.
  - by destruct (label_map !! key).
  - rewrite IH. unfold add_row at 1. case_bool_decide as Hin.
    + destruct (label_map !! key) eqn:Hk; [done|].
      case_decide as Hr; [|by rewrite <- option_fmap_compose].
      rewrite Hr, Hk in Hin. by destruct Hin.
    + rewrite lookup_insert. case_decide as Hr.
      * subst key. apply eq_None_not_Some in Hin. by rewrite Hin.
      * destruct (label_map !! key); [done|].
        by rewrite <- option_fmap_compose.
Qed.

Lemma create_label_mapping_lookup labels_csv key :
  create_label_mapping labels_csv !! key
  = (λ ir, make_entry ir.2)
      <$> list_find (λ r, pretty (symbol_id r) = key) labels_csv.
Proof.
  unfold create_label_mapping. by rewrite foldl_add_row_lookup, lookup_empty.
Qed.

Lemma create_label_mapping_dom labels_csv :
  dom (create_label_mapping labels_csv)
  = list_to_set ((λ r, pretty (symbol_id r)) <$> labels_csv).
Proof.
  apply set_eq. intros key.
  rewrite elem_of_dom, create_label_mapping_lookup, fmap_is_Some.
  rewrite elem_of_list_to_set, list_elem_of_fmap. split.
  - intros [[i r] Hf]. apply list_find_Some in Hf as (Hi & Hr & _).
    exists r. split; [done|]. by eapply list_elem_of_lookup_2.
  - intros (r & -> & Hin). by eapply list_find_elem_of.
Qed.

Lemma size_list_to_set_fmap_inj `{Countable A, Countable B}
    (f : A → B) `{!Inj (=) (=) f} (l : list A) :
  size (list_to_set (f <$> l) : gset B) = size (list_to_set l : gset A).
Proof.
  assert (list_to_set (f <$> l) = (list_to_set (f <$> remove_dups l) : gset B))
    as ->.
  { apply set_eq. intros y. rewrite !elem_of_list_to_set, !list_elem_of_fmap.
    by setoid_rewrite elem_of_remove_dups. }
  assert (list_to_set l = (list_to_set (remove_dups l) : gset A)) as ->.
  { apply set_eq. intros y. by rewrite !elem_of_list_to_set, elem_of_remove_dups. }
  rewrite !size_list_to_set, ?length_fmap; [done| |].
  - apply NoDup_remove_dups.
  - apply NoDup_fmap_2; [done|]. apply NoDup_remove_dups.
Qed.

Lemma dict_of_pair (k1 k2 v1 v2 : string) :
  k1 ≠ k2 →
  dict_of [(k1, v1); (k2, v2)] !! k1 = Some v1
  ∧ dict_of [(k1, v1); (k2, v2)] !! k2 = Some v2
  ∧ dom (dict_of [(k1, v1); (k2, v2)]) = {[k1; k2]}.
Proof.
  intros Hne. unfold dict_of. cbn [foldl fst snd]. split_and!.
  - by rewrite lookup_insert_ne, lookup_insert_eq.
  - by rewrite lookup_insert_eq.
  - rewrite !dom_insert_L, dom_empty_L. apply set_eq. intros x.
    rewrite !elem_of_union, !elem_of_singleton, elem_of_empty. tauto.
Qed.

Lemma make_entry_fields r :
  make_entry r !! "latex" = Some (str (latex r))
  ∧ make_entry r !! "unicode"
    = Some (let u := str (row_get_unicode r) in
            if decide (u = "" ∨ u = "nan")
            then match latex_to_unicode !! str (latex r) with
                 | Some glyph => glyph
                 | None => ""
                 end
            else u)
  ∧ dom (make_entry r) = {["latex"; "unicode"]}.
Proof.
  unfold make_entry. cbv zeta. unfold default.
  generalize (latex_to_unicode !! str (latex r)). intros glyph.
  generalize (str (row_get_unicode r)). intros u.
  generalize (str (latex r)). intros l.
  match goal with
  | |- context [dict_of [("latex", l); ("unicode", ?v)]] =>
      destruct (dict_of_pair "latex" "unicode" l v) as (Hl & Hu & Hd);
      [discriminate|]
  end.
  split_and!; [exact Hl| |exact Hd].
  rewrite Hu. f_equal.
  destruct (decide (u = "" ∨ u = "nan")) as [[->| ->]|Hn].
  - reflexivity.
  - reflexivity.
  - rewrite !bool_decide_eq_false_2; [reflexivity|tauto|tauto].
Qed.

(** The same, read off the cells of the row. *)
Lemma make_entry_cells r :
  let text (c : cell) := match c with NaN => "nan" | Str s => s end in
  make_entry r !! "latex" = Some (text (latex r))
  ∧ make_entry r !! "unicode"
    = Some (let u := match unicode r with
                     | Some c => text c
                     | None => ""
                     end in
            if decide (u = "" ∨ u = "nan")
            then match latex_to_unicode !! text (latex r) with
                 | Some glyph => glyph
                 | None => ""
                 end
            else u)
  ∧ dom (make_entry r) = {["latex"; "unicode"]}.
Proof.
  intros text. destruct (make_entry_fields r) as (Hl & Hu & Hd).
  split; [|split; [|exact Hd]].
  - rewrite Hl. unfold text. by destruct (latex r).
  - rewrite Hu. unfold row_get_unicode, text.
    destruct (unicode r) as [[|s]|], (latex r) as [|l]; reflexivity.
Qed.
End create_label_mapping.

(** C6. The metadata map is keyed by the decimal rendering of the original
    identifier and has exactly one entry per distinct identifier, built from
    the first row that carries the identifier.  The entry's LaTeX field is the
    text of that row's LaTeX cell (["nan"] for a missing value); its Unicode
    field is the text of the row's Unicode cell (["nan"] for a missing value,
    empty when the table has no such column), unless that text is empty or
    ["nan"], in which case it is the static table's glyph for the row's LaTeX
    string when there is one and the empty string otherwise. *)
Theorem create_label_mapping_first_occurrence (labels_csv : list TrainModel.row) :
  let label_map := TrainModel.create_label_mapping labels_csv in
  let first_row (i : nat) (r : TrainModel.row) :=
    labels_csv !! i = Some r
    ∧ ∀ j r', (j < i)%nat → labels_csv !! j = Some r' →
        TrainModel.symbol_id r' ≠ TrainModel.symbol_id r in
  let text (c : TrainModel.cell) :=
    match c with
    | TrainModel.NaN => "nan"
    | TrainModel.Str s => s
    end in
  let built_from (entry : gmap string string) (r : TrainModel.row) :=
    entry !! "latex" = Some (text (TrainModel.latex r))
    ∧ entry !! "unicode"
      = Some (let u := match TrainModel.unicode r with
                       | Some c => text c
                       | None => ""
                       end in
              if decide (u = "" ∨ u = "nan")
              then match TrainModel.latex_to_unicode
                           !! text (TrainModel.latex r) with
                   | Some glyph => glyph
                   | None => ""
                   end
              else u)
    ∧ dom entry = {["latex"; "unicode"]} in
  (∀ key entry, label_map !! key = Some entry →
     ∃ i r, first_row i r
            ∧ key = pretty (TrainModel.symbol_id r)
            ∧ built_from entry r)
  ∧ (∀ i r, first_row i r →
       ∃ entry, label_map !! pretty (TrainModel.symbol_id r) = Some entry
                ∧ built_from entry r)
  ∧ (∀ r, r ∈ labels_csv →
       is_Some (label_map !! pretty (TrainModel.symbol_id r)))
  ∧ size label_map
    = size (list_to_set (TrainModel.symbol_id <$> labels_csv) : gset Z).
Proof.
  intros label_map first_row text built_from.
  unfold label_map, first_row, built_from, text.
  clear label_map first_row built_from text.
  split; [|split; [|split]].
  - intros key entry Hk. rewrite create_label_mapping_lookup in Hk.
    apply fmap_Some in Hk as ([i r] & Hf & ->).
    apply list_find_Some in Hf as (Hi & Hr & Hfirst). cbn [snd].
    exists i, r. split; [split; [done|]|split; [done|apply make_entry_cells]].
    intros j r' Hj Hr' Heq. apply (Hfirst j r' Hr' Hj). by rewrite Heq.
  - intros i r [Hi Hfirst]. exists (TrainModel.make_entry r).
    split; [|apply make_entry_cells].
    rewrite create_label_mapping_lookup.
    assert (list_find
              (λ r0, pretty (TrainModel.symbol_id r0)
                     = pretty (TrainModel.symbol_id r)) labels_csv
            = Some (i, r)) as ->; [|done].
    apply list_find_Some. split; [done|split; [done|]].
    intros j r' Hr' Hj Heq. apply (Hfirst j r' Hj Hr').
    by apply (inj pretty).
  - intros r Hr. apply elem_of_dom. rewrite create_label_mapping_dom.
    apply elem_of_list_to_set, list_elem_of_fmap. by exists r.
  - rewrite <- size_dom, create_label_mapping_dom.
    rewrite <- (size_list_to_set_fmap_inj
                  (pretty : Z → string) (TrainModel.symbol_id <$> labels_csv)).
    by rewrite <- list_fmap_compose.
Qed.

Example predict_sample :
  WebApp.predict Sample.service Sample.request
  = ([WebApp.NdArray [1; 32; 32; 1]%nat
        (replicate 924 1%float ++ replicate 100 0%float)],
     WebApp.Response
       [ ("success", WebApp.JBool true);
         ("status", WebApp.JString "recognized");
         ("symbol", WebApp.JString "α");
         ("unicode", WebApp.JString "α");
         ("latex", WebApp.JString "\alpha");
         ("confidence", WebApp.JFloat 93.75) ]
       200).
Proof. vm_compute. reflexivity. Qed.

(** ** Binary64 comparisons *)

Section float_order.
Lemma SFcompare_Lt_Gt a b :
  SFcompare a b = Some Lt → SFcompare b a = Some Gt.
Proof.
  destruct a as [sa|sa| |sa ma ea], b as [sb|sb| |sb mb eb]; simpl;
    try destruct sa; try destruct sb; try discriminate; try reflexivity;
    rewrite (Z.compare_antisym ea eb), (ZC4 mb ma);
    destruct (ea ?= eb)%Z; simpl; try discriminate; try reflexivity;
    destruct (Pos.compare_cont Eq ma mb); simpl; try discriminate; reflexivity.
Qed.

(** [x < y] excludes [y <= x], NaN included. *)
Lemma ltb_true_leb_false (x y : float) :
  PrimFloat.ltb x y = true → PrimFloat.leb y x = false.
Proof.
  rewrite FloatAxioms.ltb_spec, FloatAxioms.leb_spec. unfold SFltb, SFleb.
  destruct (SFcompare (Prim2SF x) (Prim2SF y)) as [[]|] eqn:E; try discriminate.
  intros _. by rewrite (SFcompare_Lt_Gt _ _ E).
Qed.

Lemma leb_true_ltb_false (x y : float) :
  PrimFloat.leb y x = true → PrimFloat.ltb x y = false.
Proof.
  intros Hle. destruct (PrimFloat.ltb x y) eqn:Hlt; [|done].
  apply ltb_true_leb_false in Hlt. congruence.
Qed.
End float_order.

(** ** The [/predict] handler *)

Section predict.
Import WebApp Statements.
Context `{Libraries}.

(** Once the model has answered, the handler's result is decided by the
    label lookup and the confidence alone. *)
Lemma predict_model_answers g request img_array top_idx top_confidence :
  model_answers g request img_array top_idx top_confidence →
  predict g request
  = ([img_array],
     match labels g !! pretty top_idx with
     | None => label_mismatch top_idx
     | Some symbol_info =>
         let u := default "" (symbol_info !! "unicode") in
         let l := default "" (symbol_info !! "latex") in
         if PrimFloat.leb CONFIDENCE_THRESHOLD top_confidence then
           if bool_decide (u = "") && bool_decide (l = "")
           then data_error_both_empty
           else Response
                  (jsonify [ ("success", JBool true);
                             ("status", JString "recognized");
                             ("symbol", JString u);
                             ("unicode", JString u);
                             ("latex", JString l);
                             ("confidence",
                              JFloat (PrimFloat.mul top_confidence 100)) ])
                  200
         else unrecognized
     end).
Proof.
  intros (m & file & predictions & row & Hm & Hfile & Hname & Hpre & Hpass
          & Hpred & Hrow & Hidx & Hconf).
  unfold predict, predict_try. rewrite Hm, Hfile.
  rewrite bool_decide_eq_false_2 by done. rewrite Hpre.
  cbn [lift mbind io_bind outcome model_calls]. rewrite Hpass.
  unfold call_predict. rewrite Hpred.
  cbn [lift mbind io_bind outcome model_calls].
  unfold getitem. rewrite Hrow.
  cbn [lift mbind io_bind outcome model_calls]. rewrite Hidx.
  cbn [lift mbind io_bind outcome model_calls]. rewrite Hconf.
  cbn [lift mbind io_bind outcome model_calls].
  destruct (labels g !! pretty top_idx) as [symbol_info|]; [|done].
  cbv zeta. destruct (PrimFloat.leb _ _); [|done].
  by destruct (_ && _).
Qed.
End predict.

Section predict_cases.
Import WebApp Statements.
Context `{Libraries}.

(** With a model loaded and a named file that preprocesses, the pre-filter
    alone decides whether the model is called. *)
Lemma predict_prefilter g request m file img_array :
  model g = Some m →
  files request !! "image" = Some file →
  filename file ≠ "" →
  preprocess_image file = Return img_array →
  if prefilter_rejects
       (np_std (np_squeeze img_array))
       (np_mean_bool (np_less (np_squeeze img_array) 0.85))
  then predict g request = ([], unrecognized)
  else (predict g request).1 = [img_array].
Proof.
  intros Hm Hfile Hname Hpre.
  unfold predict, predict_try. rewrite Hm, Hfile.
  rewrite bool_decide_eq_false_2 by done. rewrite Hpre.
  cbn [lift mbind io_bind outcome model_calls].
  destruct (prefilter_rejects _ _); [done|].
  unfold call_predict. cbn [fst].
  destruct (model_predict m img_array) as [e|predictions];
    cbn [lift mbind io_bind outcome model_calls]; [done|].
  destruct (getitem predictions 0) as [e|row];
    cbn [lift mbind io_bind outcome model_calls]; [done|].
  destruct (np_argmax row) as [e|top_idx];
    cbn [lift mbind io_bind outcome model_calls]; [done|].
  destruct (getitem row top_idx) as [e|top_confidence];
    cbn [lift mbind io_bind outcome model_calls]; [done|].
  destruct (labels g !! pretty top_idx); [|done].
  cbv zeta. destruct (PrimFloat.leb _ _); [|done].
  by destruct (_ && _).
Qed.

(** The only way to the response for an entry with both strings empty is
    through such an entry. *)
Lemma predict_both_empty_inv g request :
  (predict g request).2 = data_error_both_empty →
  ∃ (top_idx : nat) symbol_info,
    labels g !! pretty top_idx = Some symbol_info
    ∧ default "" (symbol_info !! "unicode") = ""
    ∧ default "" (symbol_info !! "latex") = "".
Proof.
  unfold predict, predict_try, data_error_both_empty, unrecognized. cbn [snd].
  destruct (model g) as [m|]; [|discriminate].
  destruct (files request !! "image") as [file|]; [|discriminate].
  case_bool_decide; [discriminate|].
  destruct (preprocess_image file) as [e|img];
    cbn [lift mbind io_bind outcome model_calls]; [discriminate|].
  destruct (prefilter_rejects _ _); [discriminate|].
  unfold call_predict.
  destruct (model_predict m img) as [e|predictions];
    cbn [lift mbind io_bind outcome model_calls]; [discriminate|].
  destruct (getitem predictions 0) as [e|row];
    cbn [lift mbind io_bind outcome model_calls]; [discriminate|].
  destruct (np_argmax row) as [e|top_idx];
    cbn [lift mbind io_bind outcome model_calls]; [discriminate|].
  destruct (getitem row top_idx) as [e|top_confidence];
    cbn [lift mbind io_bind outcome model_calls]; [discriminate|].
  destruct (labels g !! pretty top_idx) as [symbol_info|] eqn:Hl; [|discriminate].
  cbv zeta. destruct (PrimFloat.leb _ _); [|discriminate].
  destruct (bool_decide _ && bool_decide _) eqn:Hb; [|discriminate].
  intros _. apply andb_true_iff in Hb as [Hu Hx].
  apply bool_decide_eq_true in Hu, Hx. by exists top_idx, symbol_info.
Qed.

(** An array that [preprocess_image] returns has 1024 elements. *)
Lemma preprocess_image_length file img_array :
  preprocess_image file = Return img_array →
  length (data img_array) = 1024%nat.
Proof.
  unfold preprocess_image.
  destruct (Image_open (read file)) as [e|img];
    cbn [mbind exn_bind]; [discriminate|].
  destruct (Image_convert img "L") as [e|img_L] eqn:Hconv;
    cbn [mbind exn_bind]; [discriminate|].
  destruct (Image_resize img_L (32, 32)%nat) as [e|img_32] eqn:Hres;
    cbn [mbind exn_bind]; [discriminate|].
  destruct (resize_L_array _ _ _ _ _ Hconv Hres) as [_ Hlen].
  unfold np_reshape, np_truediv. cbn [data shape].
  rewrite length_fmap, Hlen, bool_decide_eq_true_2 by reflexivity.
  intros [= <-]. cbn [data]. by rewrite length_fmap.
Qed.

(** [np.mean(a < x)] counts the elements of [a] that are below [x]. *)
Lemma length_filter_true_fmap {A} (f : A → bool) (l : list A) :
  length (filter (λ b, b = true) (f <$> l))
  = length (filter (λ v, f v = true) l).
Proof.
  induction l as [|v l IH]; [done|]. csimpl.
  rewrite !filter_cons. destruct (f v); simpl; by rewrite IH.
Qed.

Lemma np_mean_bool_np_less a x :
  np_mean_bool (np_less a x)
  = PrimFloat.div
      (float_of_nat (length (filter (λ v, PrimFloat.ltb v x = true) (data a))))
      (float_of_nat (length (data a))).
Proof.
  unfold np_mean_bool, np_less. cbn [data].
  by rewrite length_filter_true_fmap, length_fmap.
Qed.
End predict_cases.

(** ** The claims about the inference service *)

(** C2. With a model loaded and an image that preprocesses, [predict] answers
    [unrecognized] without calling the model exactly when the standard
    deviation is below 0.05, or the foreground fraction is below 0.02, or the
    foreground fraction is above 0.60 (all strict); otherwise the model is
    called, once, on the preprocessed image.  The comparisons accept the
    boundary values: with a standard deviation of at least 0.05, a foreground
    fraction equal to 0.02 or to 0.60 is not rejected.  The foreground
    fraction is the number of pixels of the preprocessed image whose value is
    strictly below 0.85, divided by the number of its pixels, 1024. *)
Theorem predict_prefilter_short_circuit `{WebApp.Libraries}
    (g : WebApp.globals) (request : WebApp.Request)
    (m : WebApp.Model) (file : WebApp.FileStorage)
    (img_array : WebApp.ndarray float) :
  WebApp.model g = Some m →
  WebApp.files request !! "image" = Some file →
  WebApp.filename file ≠ "" →
  WebApp.preprocess_image file = Return img_array →
  let flat := WebApp.np_squeeze img_array in
  let std_dev := WebApp.np_std flat in
  let foreground_fraction := WebApp.np_mean_bool (WebApp.np_less flat 0.85) in
  let dark :=
    length (filter (λ v, PrimFloat.ltb v 0.85 = true) (WebApp.data img_array)) in
  let rejected :=
    PrimFloat.ltb std_dev 0.05 = true
    ∨ PrimFloat.ltb foreground_fraction 0.02 = true
    ∨ PrimFloat.ltb 0.60 foreground_fraction = true in
  (WebApp.predict g request = ([], WebApp.unrecognized) ↔ rejected)
  ∧ (¬ rejected → (WebApp.predict g request).1 = [img_array])
  ∧ (rejected ↔ WebApp.prefilter_rejects std_dev foreground_fraction = true)
  ∧ (∀ std ff : float,
       PrimFloat.leb 0.05 std = true →
       ff = 0.02%float ∨ ff = 0.60%float →
       WebApp.prefilter_rejects std ff = false)
  ∧ length (WebApp.data img_array) = 1024%nat
  ∧ (dark ≤ 1024)%nat
  ∧ foreground_fraction
    = PrimFloat.div (PrimFloat.of_uint63 (Uint63.of_Z (Z.of_nat dark))) 1024.
Proof.
  intros Hm Hfile Hname Hpre flat std_dev foreground_fraction dark rejected.
  pose proof (predict_prefilter g request m file img_array Hm Hfile Hname Hpre)
    as Hrun.
  fold flat in Hrun. fold std_dev foreground_fraction in Hrun.
  assert (rejected ↔ WebApp.prefilter_rejects std_dev foreground_fraction = true)
    as Hrej.
  { unfold rejected, WebApp.prefilter_rejects, WebApp.MIN_STD_DEV,
      WebApp.MIN_FOREGROUND_FRACTION, WebApp.MAX_FOREGROUND_FRACTION.
    rewrite !orb_true_iff. tauto. }
  pose proof (preprocess_image_length _ _ Hpre) as Hlen.
  split; [|split; [|split; [|split; [|split; [|split]]]]].
  - rewrite Hrej.
    destruct (WebApp.prefilter_rejects std_dev foreground_fraction).
    + by split.
    + split; [|discriminate]. intros Heq. rewrite Heq in Hrun. discriminate.
  - rewrite Hrej.
    destruct (WebApp.prefilter_rejects std_dev foreground_fraction); [|done].
    intros Hn. by destruct Hn.
  - exact Hrej.
  - intros std ff Hstd Hff.
    unfold WebApp.prefilter_rejects, WebApp.MIN_STD_DEV.
    rewrite (leb_true_ltb_false std 0.05 Hstd).
    by destruct Hff as [-> | ->].
  - exact Hlen.
  - unfold dark. rewrite <- Hlen. apply length_filter.
  - unfold foreground_fraction, flat. rewrite np_mean_bool_np_less.
    cbn [WebApp.np_squeeze WebApp.data]. rewrite Hlen. reflexivity.
Qed.

(** C3. When the model has answered with a class that the label table knows:
    a confidence of at least 0.85 with a non-empty Unicode or LaTeX string
    gives [recognized] with [success] true, the symbol, Unicode and LaTeX
    strings and the confidence times 100; a confidence of at least 0.85 with
    both strings empty gives the [data_error] response; a confidence strictly
    below 0.85 gives [unrecognized] with [success] true.  The threshold is
    inclusive: 0.85 itself satisfies the comparison. *)
Theorem predict_confidence_threshold `{WebApp.Libraries}
    (g : WebApp.globals) (request : WebApp.Request)
    (img_array : WebApp.ndarray float)
    (top_idx : nat) (top_confidence : float)
    (symbol_info : gmap string string) :
  Statements.model_answers g request img_array top_idx top_confidence →
  WebApp.labels g !! pretty top_idx = Some symbol_info →
  let recognized_unicode := default "" (symbol_info !! "unicode") in
  let recognized_latex := default "" (symbol_info !! "latex") in
  (PrimFloat.leb 0.85 top_confidence = true →
   recognized_unicode ≠ "" ∨ recognized_latex ≠ "" →
   WebApp.predict g request
   = ([img_array],
      WebApp.Response
        [ ("success", WebApp.JBool true);
          ("status", WebApp.JString "recognized");
          ("symbol", WebApp.JString recognized_unicode);
          ("unicode", WebApp.JString recognized_unicode);
          ("latex", WebApp.JString recognized_latex);
          ("confidence", WebApp.JFloat (PrimFloat.mul top_confidence 100)) ]
        200))
  ∧ (PrimFloat.leb 0.85 top_confidence = true →
     recognized_unicode = "" → recognized_latex = "" →
     WebApp.predict g request
     = ([img_array],
        WebApp.Response
          [ ("success", WebApp.JBool false);
            ("status", WebApp.JString "data_error");
            ("error", WebApp.JString "Label found, but both Unicode and LaTeX strings were empty.") ]
          500))
  ∧ (PrimFloat.ltb top_confidence 0.85 = true →
     WebApp.predict g request
     = ([img_array],
        WebApp.Response
          [ ("success", WebApp.JBool true);
            ("status", WebApp.JString "unrecognized");
            ("message", WebApp.JString "No math symbol recognised.") ]
          200))
  ∧ PrimFloat.leb 0.85 0.85 = true.
Proof.
  intros Hrun Hlabel recognized_unicode recognized_latex.
  rewrite (predict_model_answers _ _ _ _ _ Hrun), Hlabel. cbv zeta.
  fold recognized_unicode recognized_latex.
  unfold WebApp.CONFIDENCE_THRESHOLD.
  split; [|split; [|split]].
  - intros -> Hne.
    destruct Hne as [Hne|Hne].
    + by rewrite (bool_decide_eq_false_2 _ Hne).
    + by rewrite (bool_decide_eq_false_2 _ Hne), andb_false_r.
  - intros -> Hu Hl. by rewrite !bool_decide_eq_true_2.
  - intros Hlt. by rewrite (ltb_true_leb_false _ _ Hlt).
  - reflexivity.
Qed.

(** C4. When the model has answered with a class whose index, rendered as a
    string, is not a key of the label table, the response is the [data_error]
    with [success] false and status 500, whatever the confidence; the handler
    returns it as an ordinary response. *)
Theorem predict_label_mismatch_data_error `{WebApp.Libraries}
    (g : WebApp.globals) (request : WebApp.Request)
    (img_array : WebApp.ndarray float)
    (top_idx : nat) (top_confidence : float) :
  Statements.model_answers g request img_array top_idx top_confidence →
  WebApp.labels g !! pretty top_idx = None →
  WebApp.predict g request
  = ([img_array],
     WebApp.Response
       [ ("success", WebApp.JBool false);
         ("status", WebApp.JString "data_error");
         ("error", WebApp.JString ("Label file mismatch. Index "
                                   +:+ pretty top_idx +:+ " not found.")) ]
       500).
Proof.
  intros Hrun Hlabel.
  by rewrite (predict_model_answers _ _ _ _ _ Hrun), Hlabel.
Qed.

(** Every byte divided by 255.0 lies in the closed unit interval. *)
Lemma byte_over_255_in_unit_interval (p : Byte.byte) :
  PrimFloat.leb 0 (PrimFloat.div (WebApp.float_of_byte p) 255) = true
  ∧ PrimFloat.leb (PrimFloat.div (WebApp.float_of_byte p) 255) 1 = true.
Proof. destruct p; vm_compute; split; reflexivity. Qed.

(** C7. For an upload that Pillow opens, converts to grey and resizes to 32 by
    32, [preprocess_image] returns an array of shape 1 x 32 x 32 x 1 holding
    the 1024 grey levels of the resized image, each divided by 255.0, and
    every element lies between 0 and 1 inclusive. *)
Theorem preprocess_image_shape_and_range `{WebApp.Libraries}
    (image_file : WebApp.FileStorage) (img img_L img_32 : WebApp.Image) :
  WebApp.Image_open (WebApp.read image_file) = Return img →
  WebApp.Image_convert img "L" = Return img_L →
  WebApp.Image_resize img_L (32, 32)%nat = Return img_32 →
  ∃ img_array,
    WebApp.preprocess_image image_file = Return img_array
    ∧ WebApp.shape img_array = [1; 32; 32; 1]%nat
    ∧ WebApp.data img_array
      = (λ p, PrimFloat.div (WebApp.float_of_byte p) 255)
          <$> WebApp.data (WebApp.np_array img_32)
    ∧ length (WebApp.data img_array) = 1024%nat
    ∧ Forall (λ v, PrimFloat.leb 0 v = true ∧ PrimFloat.leb v 1 = true)
             (WebApp.data img_array).
Proof.
  intros Hopen Hconv Hresize.
  destruct (WebApp.resize_L_array _ _ _ _ _ Hconv Hresize) as [_ Hlen].
  unfold WebApp.preprocess_image. rewrite Hopen. cbn [mbind exn_bind].
  rewrite Hconv. cbn [mbind exn_bind]. rewrite Hresize. cbn [mbind exn_bind].
  unfold WebApp.np_reshape, WebApp.np_truediv. cbn [WebApp.data WebApp.shape].
  rewrite length_fmap, Hlen. rewrite bool_decide_eq_true_2 by reflexivity.
  eexists. split; [reflexivity|]. cbn [WebApp.data WebApp.shape].
  split; [reflexivity|]. split; [reflexivity|].
  split; [by rewrite length_fmap|].
  apply Forall_fmap, Forall_forall. intros p _.
  apply byte_over_255_in_unit_interval.
Qed.

(** C8. When loading the model fails at start-up the service still starts,
    with no model; from then on every [predict] request, whatever it carries,
    gets status 500 with [success] false, and no model is called. *)
Theorem predict_without_model `{WebApp.Libraries}
    (e : string) (loaded_labels : exn (gmap string (gmap string string)))
    (request : WebApp.Request) :
  let g := WebApp.startup (Raise e) loaded_labels in
  WebApp.model g = None
  ∧ WebApp.predict g request
    = ([],
       WebApp.Response
         [ ("success", WebApp.JBool false);
           ("error", WebApp.JString "Model not loaded. Please check server logs.") ]
         500).
Proof. intros g. split; reflexivity. Qed.

(** C10. [health] always answers 200 with [status] equal to ["healthy"];
    [model_loaded] tells whether a model is loaded, [labels_loaded] whether the
    label table is non-empty, and [num_classes] is the number of entries of
    the label table.  After a start-up in which both loads failed the answer
    is still healthy, with both flags false and zero classes. *)
Theorem health_always_healthy (g : WebApp.globals) :
  WebApp.status_code (WebApp.health g) = 200%nat
  ∧ ("status", WebApp.JString "healthy") ∈ WebApp.body (WebApp.health g)
  ∧ (∃ b, ("model_loaded", WebApp.JBool b) ∈ WebApp.body (WebApp.health g)
          ∧ (b = true ↔ is_Some (WebApp.model g)))
  ∧ (∃ b, ("labels_loaded", WebApp.JBool b) ∈ WebApp.body (WebApp.health g)
          ∧ (b = true ↔ WebApp.labels g ≠ ∅))
  ∧ ("num_classes", WebApp.JInt (Z.of_nat (size (WebApp.labels g))))
    ∈ WebApp.body (WebApp.health g)
  ∧ (∀ e1 e2,
       WebApp.health (WebApp.startup (Raise e1) (Raise e2))
       = WebApp.Response
           [ ("status", WebApp.JString "healthy");
             ("model_loaded", WebApp.JBool false);
             ("labels_loaded", WebApp.JBool false);
             ("num_classes", WebApp.JInt 0) ]
           200).
Proof.
  unfold WebApp.health, WebApp.jsonify. cbn [WebApp.status_code WebApp.body].
  split; [reflexivity|]. split; [by left|].
  split; [|split; [|split]].
  - eexists. split; [right; left|].
    rewrite bool_decide_eq_true, <- not_eq_None_Some. done.
  - eexists. split; [do 2 right; left|].
    rewrite bool_decide_eq_true, <- map_size_non_empty_iff. lia.
  - do 3 right. left.
  - reflexivity.
Qed.

(** ** The metadata builder feeding the service *)

(** A table built by hand with an empty (not missing) LaTeX cell and no
    Unicode column gives an entry with both strings empty, on which the
    service answers the both-empty [data_error].  [pd.read_csv], with the
    default NA handling [load_hasy_dataset] leaves in place, reads an empty
    field as a missing value: the tables [main] passes have no such cell. *)
Example create_label_mapping_empty_text_cell :
  TrainModel.create_label_mapping Sample.labels_csv_empty_latex
  = dict_of [ ("1", dict_of [("latex", ""); ("unicode", "")]) ]
  ∧ WebApp.predict
      (WebApp.Globals
         (Some Sample.classifier)
         (TrainModel.create_label_mapping Sample.labels_csv_empty_latex))
      Sample.request
    = ([Sample.img_array], Statements.data_error_both_empty).
Proof. split; vm_compute; reflexivity. Qed.

(** C9. For every label table in which the rows the builder reads, the
    first row of each identifier, have a LaTeX cell other than the empty
    text (so for every table [pd.read_csv] returns, where an empty field is a
    missing value), every entry of the metadata map has a non-empty LaTeX
    field: it is the text of that row's LaTeX cell, and ["nan"] when the cell
    is missing.  Hence no entry has both strings empty, and a service whose
    label table is the builder's output never answers with the both-empty
    [data_error]. *)
Theorem create_label_mapping_latex_nonempty
    (labels_csv : list TrainModel.row) :
  let first_row (i : nat) (r : TrainModel.row) :=
    labels_csv !! i = Some r
    ∧ ∀ j r', (j < i)%nat → labels_csv !! j = Some r' →
        TrainModel.symbol_id r' ≠ TrainModel.symbol_id r in
  (∀ i r, first_row i r → TrainModel.latex r ≠ TrainModel.Str "") →
  let label_map := TrainModel.create_label_mapping labels_csv in
  (∀ key entry, label_map !! key = Some entry →
     ∃ i r, first_row i r
            ∧ key = pretty (TrainModel.symbol_id r)
            ∧ entry !! "latex"
              = Some (match TrainModel.latex r with
                      | TrainModel.NaN => "nan"
                      | TrainModel.Str s => s
                      end)
            ∧ default "" (entry !! "latex") ≠ ""
            ∧ ¬ (default "" (entry !! "unicode") = ""
                 ∧ default "" (entry !! "latex") = ""))
  ∧ (∀ (L : WebApp.Libraries) (g : WebApp.globals) (request : WebApp.Request),
       WebApp.labels g = label_map →
       (WebApp.predict g request).2 ≠ Statements.data_error_both_empty).
Proof.
  intros first_row Hcells label_map.
  assert (∀ key entry, label_map !! key = Some entry →
            ∃ i r, first_row i r
                   ∧ key = pretty (TrainModel.symbol_id r)
                   ∧ entry !! "latex"
                     = Some (match TrainModel.latex r with
                             | TrainModel.NaN => "nan"
                             | TrainModel.Str s => s
                             end)
                   ∧ default "" (entry !! "latex") ≠ "") as Hlatex.
  { intros key entry Hk. unfold label_map in Hk.
    rewrite create_label_mapping_lookup in Hk.
    apply fmap_Some in Hk as ([i r] & Hf & ->).
    apply list_find_Some in Hf as (Hi & Hr & Hfirst). cbn [snd].
    assert (first_row i r) as Hrow.
    { split; [done|]. intros j r' Hj Hr' Heq.
      apply (Hfirst j r' Hr' Hj). by rewrite Heq. }
    exists i, r. split; [done|]. split; [done|].
    destruct (make_entry_cells r) as (Hl & _ & _). cbv zeta in Hl.
    split; [done|]. rewrite Hl. cbn [default from_option id].
    specialize (Hcells i r Hrow).
    destruct (TrainModel.latex r) as [|s]; [discriminate|].
    intros ->. by apply Hcells. }
  split.
  - intros key entry Hk.
    destruct (Hlatex key entry Hk) as (i & r & Hrow & Hkey & Hl & Hne).
    exists i, r. do 4 (split; [done|]). tauto.
  - intros L g request Hg Hresp.
    apply predict_both_empty_inv in Hresp as (top_idx & info & Hinfo & _ & Hl).
    rewrite Hg in Hinfo.
    by destruct (Hlatex _ _ Hinfo) as (i & r & _ & _ & _ & Hne).
Qed.

(** ** The theorems at a concrete service *)

Lemma sample_model_answers :
  Statements.model_answers Sample.service Sample.request
    Sample.img_array 1 0.9375.
Proof.
  exists Sample.classifier, Sample.upload,
    [[0.03125; 0.9375; 0.03125]%float], [0.03125; 0.9375; 0.03125]%float.
  repeat split; try (vm_compute; reflexivity). discriminate.
Defined.

Lemma sample_model_answers_unlabelled :
  Statements.model_answers Sample.unlabelled_service Sample.request
    Sample.img_array 1 0.9375.
Proof.
  exists Sample.classifier, Sample.upload,
    [[0.03125; 0.9375; 0.03125]%float], [0.03125; 0.9375; 0.03125]%float.
  repeat split; try (vm_compute; reflexivity). discriminate.
Defined.

Lemma predict_prefilter_short_circuit_witness :
  WebApp.preprocess_image Sample.upload = Return Sample.img_array
  ∧ (WebApp.predict Sample.service Sample.request).1 = [Sample.img_array]
  ∧ WebApp.np_mean_bool
      (WebApp.np_less (WebApp.np_squeeze Sample.img_array) 0.85)
    = 0.09765625%float.
Proof.
  assert (WebApp.preprocess_image Sample.upload = Return Sample.img_array)
    as Hpre by (vm_compute; reflexivity).
  split; [exact Hpre|].
  destruct (predict_prefilter_short_circuit
              Sample.service Sample.request Sample.classifier Sample.upload
              Sample.img_array)
    as (_ & Hcall & _ & _ & _ & _ & Hfraction);
    [reflexivity | vm_compute; reflexivity | discriminate | exact Hpre |].
  split.
  - apply Hcall. intros [Hr|[Hr|Hr]]; vm_compute in Hr; discriminate.
  - rewrite Hfraction. vm_compute. reflexivity.
Defined.

Lemma predict_confidence_threshold_witness :
  WebApp.predict Sample.service Sample.request
  = ([Sample.img_array],
     WebApp.Response
       [ ("success", WebApp.JBool true);
         ("status", WebApp.JString "recognized");
         ("symbol", WebApp.JString "α");
         ("unicode", WebApp.JString "α");
         ("latex", WebApp.JString "\alpha");
         ("confidence", WebApp.JFloat 93.75) ]
       200).
Proof.
  apply (predict_confidence_threshold
           Sample.service Sample.request Sample.img_array 1 0.9375
           (dict_of [("latex", "\alpha"); ("unicode", "α")])
           sample_model_answers).
  - vm_compute; reflexivity.
  - vm_compute; reflexivity.
  - left. vm_compute. discriminate.
Defined.

Lemma predict_label_mismatch_data_error_witness :
  WebApp.predict Sample.unlabelled_service Sample.request
  = ([Sample.img_array],
     WebApp.Response
       [ ("success", WebApp.JBool false);
         ("status", WebApp.JString "data_error");
         ("error", WebApp.JString "Label file mismatch. Index 1 not found.") ]
       500).
Proof.
  apply (predict_label_mismatch_data_error
           Sample.unlabelled_service Sample.request Sample.img_array 1 0.9375
           sample_model_answers_unlabelled).
  vm_compute; reflexivity.
Defined.

Lemma preprocess_image_shape_and_range_witness :
  ∃ img_array,
    WebApp.preprocess_image Sample.upload = Return img_array
    ∧ WebApp.shape img_array = [1; 32; 32; 1]%nat
    ∧ length (WebApp.data img_array) = 1024%nat
    ∧ Forall (λ v, PrimFloat.leb 0 v = true ∧ PrimFloat.leb v 1 = true)
             (WebApp.data img_array).
Proof.
  destruct (@preprocess_image_shape_and_range Sample.libraries
              Sample.upload
              (WebApp.NdArray [1; 1024]%nat (WebApp.read Sample.upload))
              (WebApp.NdArray [1; 1024]%nat (WebApp.read Sample.upload))
              (WebApp.NdArray [32; 32]%nat (WebApp.read Sample.upload)))
    as (img_array & Hpre & Hshape & _ & Hlen & Hrange);
    [vm_compute; reflexivity | reflexivity | vm_compute; reflexivity |].
  by exists img_array.
Defined.

Lemma create_label_mapping_latex_nonempty_witness :
  TrainModel.create_label_mapping Sample.labels_csv !! "1"
  = Some (dict_of [("latex", "nan"); ("unicode", "")])
  ∧ (WebApp.predict
       (WebApp.Globals (Some Sample.classifier)
          (TrainModel.create_label_mapping Sample.labels_csv))
       Sample.request).2
    ≠ Statements.data_error_both_empty.
Proof.
  split; [vm_compute; reflexivity|].
  apply (create_label_mapping_latex_nonempty Sample.labels_csv); [|reflexivity].
  intros i r [Hi _].
  destruct i as [|[|i]]; cbn in Hi; [| |discriminate];
    injection Hi as <-; discriminate.
Defined.

(** ** Further checks on the concrete service *)

(** An all-white upload is answered [unrecognized] and no model is called. *)
Example predict_blank_sample :
  WebApp.predict Sample.service Sample.blank_request
  = ([], WebApp.unrecognized).
Proof. vm_compute. reflexivity. Qed.

(** The foreground fraction of a 1024-pixel image is a multiple of 1/1024:
    it is never equal to either bound of the pre-filter, so on the arrays
    [preprocess_image] returns the strict and the inclusive readings of the
    two comparisons agree. *)
Remark foreground_fraction_off_boundary (a : WebApp.ndarray bool) :
  length (WebApp.data a) = 1024%nat →
  WebApp.np_mean_bool a ≠ WebApp.MIN_FOREGROUND_FRACTION
  ∧ WebApp.np_mean_bool a ≠ WebApp.MAX_FOREGROUND_FRACTION.
Proof.
  intros Hlen. unfold WebApp.np_mean_bool. rewrite Hlen.
  pose proof (length_filter (λ b, b = true) (WebApp.data a)) as Hcount.
  rewrite Hlen in Hcount.
  set (count := length (filter (λ b, b = true) (WebApp.data a))) in *.
  assert (Forall
            (λ c, PrimFloat.eqb
                    (PrimFloat.div (WebApp.float_of_nat c)
                                   (WebApp.float_of_nat 1024))
                    WebApp.MIN_FOREGROUND_FRACTION = false
                  ∧ PrimFloat.eqb
                      (PrimFloat.div (WebApp.float_of_nat c)
                                     (WebApp.float_of_nat 1024))
                      WebApp.MAX_FOREGROUND_FRACTION = false)
            (seq 0 1025)) as Hall.
  { match goal with
    | |- ?P => apply (bool_decide_eq_true_1 P)
    end.
    vm_compute. reflexivity. }
  rewrite Forall_forall in Hall.
  destruct (Hall count) as [Hmin Hmax]; [apply elem_of_seq; lia|].
  split; intros Heq; rewrite Heq in *; vm_compute in Hmin, Hmax; discriminate.
Qed.

(** * Part III: further properties of the training script *)

(** ** [remap_labels]: decoding, density, idempotence *)

Section remap_labels_more.
Import TrainModel.

Lemma StronglySorted_lt_seq (n k : nat) :
  StronglySorted Z.lt (Z.of_nat <$> seq n k).
Proof.
  revert n. induction k as [|k IH]; intros n; csimpl; constructor; [apply IH|].
  apply Forall_forall. intros x Hx.
  apply list_elem_of_fmap in Hx as (m & -> & Hm).
  apply elem_of_seq in Hm. lia.
Qed.

(** Two strictly ascending lists with the same elements are the same list. *)
Lemma StronglySorted_lt_ext (l1 l2 : list Z) :
  StronglySorted Z.lt l1 → StronglySorted Z.lt l2 →
  (∀ x, x ∈ l1 ↔ x ∈ l2) → l1 = l2.
Proof.
  intros H1 H2 Hel. apply (StronglySorted_unique_strong Z.lt); [|done|done|].
  - intros x1 x2 _ _ ? ?. lia.
  - apply NoDup_Permutation; [by apply StronglySorted_lt_NoDup..|done].
Qed.

(** The positions handed out are exactly those below the number of distinct
    identifiers. *)
Lemma remap_labels_new_labels_range labels new_labels forward reverse n :
  remap_labels labels = Some (new_labels, forward, reverse) →
  n ∈ new_labels ↔ (n < length (np_unique labels))%nat.
Proof.
  intros Hr.
  destruct (remap_labels_tables _ _ _ _ Hr) as (Hf & _ & _ & _ & Hnl).
  split.
  - intros Hn. apply list_elem_of_lookup in Hn as [j Hj].
    destruct (Forall2_lookup_r _ _ _ _ _ Hnl Hj) as (l & _ & Hl).
    apply Hf in Hl. by eapply lookup_lt_Some.
  - intros Hn. apply lookup_lt_is_Some in Hn as [x Hx].
    assert (x ∈ labels) as Hin.
    { apply np_unique_elem_of, list_elem_of_lookup. by exists n. }
    apply list_elem_of_lookup in Hin as [j Hj].
    destruct (Forall2_lookup_l _ _ _ _ _ Hnl Hj) as (n' & Hn' & Hl).
    apply Hf in Hl. apply list_elem_of_lookup. exists j.
    assert (n' = n) as <-; [|done].
    eapply NoDup_lookup; [apply np_unique_NoDup|done..].
Qed.

Lemma remap_labels_new_labels_unique labels new_labels forward reverse :
  remap_labels labels = Some (new_labels, forward, reverse) →
  np_unique (Z.of_nat <$> new_labels)
  = Z.of_nat <$> seq 0 (length (np_unique labels)).
Proof.
  intros Hr. apply StronglySorted_lt_ext.
  - apply np_unique_sorted.
  - apply StronglySorted_lt_seq.
  - intros x. rewrite np_unique_elem_of, !list_elem_of_fmap.
    split; intros (n & -> & Hn); exists n; split; try done.
    + apply elem_of_seq. split; [lia|]. simpl.
      by apply (remap_labels_new_labels_range _ _ _ _ _ Hr).
    + apply elem_of_seq in Hn.
      apply (remap_labels_new_labels_range _ _ _ _ _ Hr). lia.
Qed.
End remap_labels_more.

(** X1. Decoding the new labels with the reverse table gives back the
    original labels, in order; so two samples carry the same new label
    exactly when they carried the same identifier. *)
Theorem remap_labels_reverse_decodes (labels : list Z) :
  ∃ new_labels forward reverse,
    TrainModel.remap_labels labels = Some (new_labels, forward, reverse)
    ∧ mapM (λ n, reverse !! n) new_labels = Some labels
    ∧ ∀ i j a b,
        labels !! i = Some a → labels !! j = Some b →
        new_labels !! i = new_labels !! j ↔ a = b.
Proof.
  destruct (remap_labels_returns labels) as [[[nl fwd] rev] Hr].
  exists nl, fwd, rev. split; [done|].
  destruct (remap_labels_tables _ _ _ _ Hr) as (Hf & Hv & _ & _ & Hnl).
  split.
  - apply mapM_Some, Forall2_flip.
    eapply Forall2_impl; [exact Hnl|].
    intros l n Hl. cbn. by apply Hv, Hf.
  - intros i j a b Hi Hj.
    destruct (Forall2_lookup_l _ _ _ _ _ Hnl Hi) as (n & Hn & Hfa).
    destruct (Forall2_lookup_l _ _ _ _ _ Hnl Hj) as (m & Hm & Hfb).
    rewrite Hn, Hm. split.
    + intros [= ->]. apply Hf in Hfa, Hfb. congruence.
    + intros ->. congruence.
Qed.

(** X2. The new labels are dense: their distinct values are exactly
    [0..K-1], [K] the number of distinct identifiers of the input, every new
    label is below [K], and [train_model], given the new labels, asks Keras
    for exactly [K] classes. *)
Theorem remap_labels_dense_num_classes (labels : list Z) :
  let K := size (list_to_set labels : gset Z) in
  ∃ new_labels forward reverse,
    TrainModel.remap_labels labels = Some (new_labels, forward, reverse)
    ∧ TrainModel.np_unique (Z.of_nat <$> new_labels) = Z.of_nat <$> seq 0 K
    ∧ (∀ n, n ∈ new_labels ↔ (n < K)%nat)
    ∧ ∀ (E : TrainModel.Environment) (images : list TrainModel.tensor),
        TrainModel.train_model images new_labels
        = TrainModel.keras_fit K images new_labels.
Proof.
  intros K.
  destruct (remap_labels_returns labels) as [[[nl fwd] rev] Hr].
  exists nl, fwd, rev. split; [done|].
  unfold K. rewrite <- np_unique_length.
  pose proof (remap_labels_new_labels_unique _ _ _ _ Hr) as Hu.
  split; [done|]. split.
  - intros n. by apply (remap_labels_new_labels_range _ _ _ _ _ Hr).
  - intros E images. unfold TrainModel.train_model.
    by rewrite Hu, length_fmap, length_seq.
Qed.

(** X3. Remapping is idempotent: remapping the new labels returns them
    unchanged, with both tables the identity on [0..K-1]. *)
Theorem remap_labels_idempotent (labels : list Z) :
  let K := size (list_to_set labels : gset Z) in
  ∃ new_labels forward reverse forward' reverse',
    TrainModel.remap_labels labels = Some (new_labels, forward, reverse)
    ∧ TrainModel.remap_labels (Z.of_nat <$> new_labels)
      = Some (new_labels, forward', reverse')
    ∧ (∀ x i, forward' !! x = Some i ↔ x = Z.of_nat i ∧ (i < K)%nat)
    ∧ (∀ i x, reverse' !! i = Some x ↔ x = Z.of_nat i ∧ (i < K)%nat).
Proof.
  intros K.
  destruct (remap_labels_returns labels) as [[[nl fwd] rev] Hr].
  destruct (remap_labels_returns (Z.of_nat <$> nl)) as [[[nl' fwd'] rev'] Hr'].
  exists nl, fwd, rev, fwd', rev'. split; [done|].
  destruct (remap_labels_tables _ _ _ _ Hr') as (Hf & Hv & _ & _ & Hnl).
  rewrite (remap_labels_new_labels_unique _ _ _ _ Hr) in Hf, Hv.
  unfold K. rewrite <- np_unique_length.
  assert (∀ i x, (Z.of_nat <$> seq 0 (length (TrainModel.np_unique labels))) !! i
                 = Some x
                 ↔ x = Z.of_nat i ∧ (i < length (TrainModel.np_unique labels))%nat)
    as Hseq.
  { intros i x. rewrite list_lookup_fmap, fmap_Some. split.
    - intros (m & Hm & ->). apply lookup_seq in Hm as [-> ?]. done.
    - intros [-> Hi]. exists i. split; [|done]. by apply lookup_seq. }
  split; [|split].
  - assert (nl' = nl) as ->; [|done].
    apply list_eq. intros j.
    destruct (nl !! j) as [n|] eqn:Hn.
    + assert ((Z.of_nat <$> nl) !! j = Some (Z.of_nat n)) as Hj
        by by rewrite list_lookup_fmap, Hn.
      destruct (Forall2_lookup_l _ _ _ _ _ Hnl Hj) as (n' & Hn' & Hl).
      apply Hf, Hseq in Hl as [Heq _]. rewrite Hn'. f_equal. lia.
    + apply lookup_ge_None in Hn. apply lookup_ge_None.
      apply Forall2_length in Hnl. rewrite length_fmap in Hnl. lia.
  - intros x i. by rewrite Hf, Hseq.
  - intros i x. by rewrite Hv, Hseq.
Qed.

(** ** [create_label_mapping]: the entries with both strings empty *)

Section create_label_mapping_more.
Import TrainModel.

(** A key holds the entry of the first row that carries it. *)
Lemma create_label_mapping_lookup_first (labels_csv : list row) key entry :
  create_label_mapping labels_csv !! key = Some entry
  ↔ ∃ i r, labels_csv !! i = Some r
           ∧ key = pretty (symbol_id r)
           ∧ (∀ j r', (j < i)%nat → labels_csv !! j = Some r' →
                symbol_id r' ≠ symbol_id r)
           ∧ entry = make_entry r.
Proof.
  rewrite create_label_mapping_lookup, fmap_Some. split.
  - intros ([i r] & Hf & ->).
    apply list_find_Some in Hf as (Hi & Hr & Hfirst). cbn [snd].
    exists i, r. split; [done|]. split; [done|]. split; [|done].
    intros j r' Hj Hr' Heq. apply (Hfirst j r' Hr' Hj). by rewrite Heq.
  - intros (i & r & Hi & -> & Hfirst & ->). exists (i, r). split; [|done].
    apply list_find_Some. split; [done|]. split; [done|].
    intros j r' Hr' Hj Heq. apply (Hfirst j r' Hj Hr'). by apply (inj pretty).
Qed.

Lemma latex_to_unicode_no_empty_key : latex_to_unicode !! "" = None.
Proof. vm_compute. reflexivity. Qed.

(** Both strings of a row's entry are empty exactly when its LaTeX cell is
    the empty text and its Unicode value is empty or ["nan"]. *)
Lemma make_entry_both_empty r :
  default "" (make_entry r !! "unicode") = ""
  ∧ default "" (make_entry r !! "latex") = ""
  ↔ latex r = Str ""
    ∧ (str (row_get_unicode r) = "" ∨ str (row_get_unicode r) = "nan").
Proof.
  destruct (make_entry_fields r) as (Hl & Hu & _). rewrite Hl, Hu. cbn [default].
  cbv zeta. split.
  - intros [Hue Hle].
    assert (latex r = Str "") as Hcell.
    { destruct (latex r) as [|s]; [discriminate|]. simpl in Hle. by subst. }
    split; [done|].
    destruct (decide _) as [Hd|Hd]; [done|]. tauto.
  - intros [Hcell Hd]. rewrite Hcell. cbn [str].
    rewrite decide_True by done.
    by rewrite latex_to_unicode_no_empty_key.
Qed.

(** The same, read off the cells of the row. *)
Lemma make_entry_both_empty_cells r :
  default "" (make_entry r !! "unicode") = ""
  ∧ default "" (make_entry r !! "latex") = ""
  ↔ latex r = Str ""
    ∧ (unicode r = None ∨ unicode r = Some NaN
       ∨ unicode r = Some (Str "") ∨ unicode r = Some (Str "nan")).
Proof.
  rewrite make_entry_both_empty. unfold row_get_unicode.
  split; intros [Hl Hu]; (split; [done|]).
  - destruct (unicode r) as [[|s]|]; cbn in Hu.
    + right. by left.
    + destruct Hu as [->| ->]; [right; right; by left|by do 3 right].
    + by left.
  - destruct Hu as [->|[->|[->| ->]]]; cbn; auto.
Qed.
End create_label_mapping_more.

(** ** [load_hasy_dataset] *)

Section load_hasy_dataset.
Import TrainModel Statements.
Context `{Environment}.

(** The loop appends, for the rows on disk and in their order, the
    processed image and the identifier. *)
Lemma load_rows_Return base_path rows images labels images' labels' :
  load_rows base_path rows images labels = Return (images', labels') →
  ∃ new_images,
    images' = images ++ new_images
    ∧ labels' = labels ++ ((λ row, symbol_id (meta row))
                             <$> filter (on_disk base_path) rows)
    ∧ Forall2
        (λ row img, ∃ r,
           cv2_imread (os_path_join base_path (path row)) = Some r
           ∧ img = astype_float32_div_255 (cv2_resize r (32, 32)%nat))
        (filter (on_disk base_path) rows) new_images.
Proof.
  revert images labels.
  induction rows as [|row rows IH]; intros images labels; cbn [load_rows].
  - intros [= <- <-]. exists []. by rewrite !app_nil_r.
  - destruct (os_path_exists _) eqn:Hex; cbn [negb].
    + destruct (cv2_imread _) as [r|] eqn:Hread; [|discriminate].
      intros Hrun. destruct (IH _ _ Hrun) as (new & -> & -> & Hall).
      rewrite filter_cons_True by done.
      exists (astype_float32_div_255 (cv2_resize r (32, 32)%nat) :: new).
      rewrite <- !app_assoc. split; [done|]. split; [done|].
      constructor; [by exists r|done].
    + intros Hrun. destruct (IH _ _ Hrun) as (new & -> & -> & Hall).
      rewrite filter_cons_False; [by exists new|].
      unfold on_disk. by rewrite Hex.
Qed.



(** The conversion to a 32-bit array returns the list it was given, and it
    returns exactly when every element is in range. *)
Lemma np_array_int32_Return labels labels' :
  np_array_int32 labels = Return labels'
  ↔ labels' = labels ∧ Forall int32 labels.
Proof.
  unfold np_array_int32.
  destruct (list_find _ labels) as [[i x]|] eqn:Hf.
  - apply list_find_Some in Hf as (Hi & Hx & _). split; [discriminate|].
    intros [_ Hall]. destruct Hx.
    rewrite Forall_forall in Hall. apply Hall.
    by eapply list_elem_of_lookup_2.
  - apply list_find_None in Hf. split.
    + intros [= <-]. split; [done|].
      eapply Forall_impl; [exact Hf|]. intros x Hx. by apply dec_stable.
    + by intros [-> _].
Qed.


(** [load_hasy_dataset] returns what the three steps give. *)
Lemma load_hasy_dataset_Return base_path images labels labels_csv :
  load_hasy_dataset base_path = Return (images, labels, labels_csv)
  ↔ pd_read_csv (os_path_join base_path "hasy-data-labels.csv")
    = Return labels_csv
    ∧ load_rows base_path labels_csv [] [] = Return (images, labels)
    ∧ Forall int32 labels.
Proof.
  unfold load_hasy_dataset.
  destruct (pd_read_csv _) as [e|rows]; cbn [mbind exn_bind].
  { split; [discriminate|]. by intros [[=] _]. }
  destruct (load_rows base_path rows [] []) as [e|[imgs lbls]] eqn:Hl;
    cbn [mbind exn_bind].
  { split; [discriminate|]. intros ([= <-] & Hl' & _). congruence. }
  destruct (np_array_int32 lbls) as [e|lbls'] eqn:Hc; cbn [mbind exn_bind].
  - split; [discriminate|]. intros ([= <-] & Hl' & Hall).
    rewrite Hl in Hl'. injection Hl' as <- <-.
    assert (np_array_int32 lbls = Return lbls) as Hc'
      by by apply np_array_int32_Return.
    congruence.
  - apply np_array_int32_Return in Hc as [-> Hall]. split.
    + by intros [= <- <- <-].
    + intros ([= <-] & Hl' & _). rewrite Hl in Hl'. by injection Hl' as <- <-.
Qed.

(** The identifiers loaded are those of the rows on disk. *)
Lemma load_rows_labels base_path rows images labels :
  load_rows base_path rows [] [] = Return (images, labels) →
  labels = (λ row, symbol_id (meta row)) <$> filter (on_disk base_path) rows.
Proof.
  intros Hl. by destruct (load_rows_Return _ _ _ _ _ _ Hl) as (new & _ & -> & _).
Qed.
End load_hasy_dataset.

(** X5. When [load_hasy_dataset] returns, it returns the label table as
    [pd.read_csv] gave it, the identifiers of exactly the rows whose image
    file is on disk, in table order and each within the 32-bit range, and
    one image per such row, read from that row's file, resized to 32 by 32
    and normalised: rows with a missing file are dropped without a trace and
    nothing is reordered. *)
Theorem load_hasy_dataset_keeps_rows_on_disk `{TrainModel.Environment}
    (base_path : string) (labels_csv : list TrainModel.hasy_row)
    (images : list TrainModel.tensor) (labels : list Z) :
  TrainModel.load_hasy_dataset base_path
  = Return (images, labels, labels_csv) →
  let kept := filter (Statements.on_disk base_path) labels_csv in
  TrainModel.pd_read_csv
    (TrainModel.os_path_join base_path "hasy-data-labels.csv")
  = Return labels_csv
  ∧ labels = (λ row, TrainModel.symbol_id (TrainModel.meta row)) <$> kept
  ∧ Forall2
      (λ row img, ∃ r,
         TrainModel.cv2_imread
           (TrainModel.os_path_join base_path (TrainModel.path row)) = Some r
         ∧ img = TrainModel.astype_float32_div_255
                   (TrainModel.cv2_resize r (32, 32)%nat))
      kept images
  ∧ length images = length labels
  ∧ Forall TrainModel.int32 labels.
Proof.
  intros Hrun kept. unfold kept. clear kept.
  apply load_hasy_dataset_Return in Hrun as (Hread & Hl & Hall).
  destruct (load_rows_Return _ _ _ _ _ _ Hl) as (new & -> & -> & Hrows).
  cbn [app] in *. split; [done|]. split; [done|]. split; [done|].
  split; [|done].
  rewrite length_fmap. symmetry. by eapply Forall2_length.
Qed.

Lemma load_hasy_dataset_keeps_rows_on_disk_witness :
  TrainModel.load_hasy_dataset "data"
  = Return ([[Byte.xff]; [Byte.xff]], [31; 7], Sample.hasy_table)
  ∧ [31; 7]
    = (λ row, TrainModel.symbol_id (TrainModel.meta row))
        <$> filter (Statements.on_disk "data") Sample.hasy_table.
Proof.
  assert (TrainModel.load_hasy_dataset "data"
          = Return ([[Byte.xff]; [Byte.xff]], [31; 7], Sample.hasy_table))
    as Hrun by (vm_compute; reflexivity).
  split; [exact Hrun|].
  by destruct (load_hasy_dataset_keeps_rows_on_disk _ _ _ _ Hrun)
    as (_ & Hlabels & _).
Defined.


(** ** [save_all] and [main] *)

Section save_all.
Import TrainModel.

Lemma pretty_nat_Z (i : nat) : pretty (Z.of_nat i) = pretty i.
Proof. by destruct i. Qed.

Lemma reverse_mapping_items_keys (items : list (nat * Z)) :
  ((λ '(k, v), (pretty k, v)) <$> items).*1 = pretty <$> items.*1.
Proof.
  induction items as [|[k v] items IH]; [done|]. csimpl. by rewrite IH.
Qed.

Lemma reverse_mapping_items_NoDup (items : list (nat * Z)) :
  NoDup items.*1 → NoDup ((λ '(k, v), (pretty k, v)) <$> items).*1.
Proof.
  intros Hnd. rewrite reverse_mapping_items_keys.
  by apply (NoDup_fmap_2 pretty).
Qed.

(** Whatever the order in which the items of the dictionary come, the
    saved object maps the rendering of a position to what the reverse
    table holds there, and has no other key. *)
Lemma reverse_mapping_saved (reverse_mapping : gmap nat Z)
    (items : list (nat * Z)) (key : string) (x : Z) :
  items ≡ₚ map_to_list reverse_mapping →
  dict_of ((λ '(k, v), (pretty k, v)) <$> items) !! key = Some x
  ↔ ∃ i : nat, key = pretty i ∧ reverse_mapping !! i = Some x.
Proof.
  intros Hperm.
  assert (NoDup items.*1) as Hnd.
  { rewrite Hperm. apply NoDup_fst_map_to_list. }
  rewrite dict_of_lookup by by apply reverse_mapping_items_NoDup.
  rewrite list_elem_of_fmap. split.
  - intros ([i y] & [= -> ->] & Hin). exists i. split; [done|].
    rewrite Hperm in Hin. by apply elem_of_map_to_list in Hin.
  - intros (i & -> & Hi). exists (i, x). split; [done|].
    rewrite Hperm. by apply elem_of_map_to_list.
Qed.

Lemma reverse_mapping_saved_lookup (reverse_mapping : gmap nat Z) (i : nat) :
  dict_of (reverse_mapping_items reverse_mapping) !! pretty i
  = reverse_mapping !! i.
Proof.
  apply option_eq. intros x. unfold reverse_mapping_items.
  rewrite (reverse_mapping_saved reverse_mapping) by done. split.
  - intros (j & Hj & Hx). by apply (inj pretty) in Hj as ->.
  - intros Hx. by exists i.
Qed.

Lemma reverse_mapping_saved_size (reverse_mapping : gmap nat Z) :
  size (dict_of (reverse_mapping_items reverse_mapping)) = size reverse_mapping.
Proof.
  unfold reverse_mapping_items. rewrite dict_of_size.
  - by rewrite length_fmap, length_map_to_list.
  - apply reverse_mapping_items_NoDup, NoDup_fst_map_to_list.
Qed.
End save_all.

(** X7. [save_all] writes the reverse mapping as an object keyed by the
    decimal rendering of each position: looking up the rendering of [i]
    gives what the reverse table holds at [i], there is no other key, no
    entry is lost, and the object does not depend on the order in which the
    dictionary yields its items.  It is written, together with both model
    files, before the TFLite converter runs, so it is on disk even when the
    conversion raises; [labels.json] is not touched. *)
Theorem save_all_writes_reverse_mapping `{TrainModel.Environment}
    (model : TrainModel.TrainedModel) (reverse_mapping : gmap nat Z)
    (d : TrainModel.disk) :
  let d' := (TrainModel.save_all model reverse_mapping d).1 in
  ∃ saved,
    TrainModel.reverse_mapping_json d' = Some saved
    ∧ (∀ i : nat, saved !! pretty i = reverse_mapping !! i)
    ∧ (∀ key x, saved !! key = Some x → ∃ i : nat, key = pretty i)
    ∧ size saved = size reverse_mapping
    ∧ (∀ items, items ≡ₚ map_to_list reverse_mapping →
         dict_of ((λ '(k, v), (pretty k, v)) <$> items) = saved)
    ∧ TrainModel.model_keras d' = Some model
    ∧ TrainModel.model_h5 d' = Some model
    ∧ TrainModel.labels_json d' = TrainModel.labels_json d
    ∧ (∀ e, TrainModel.tflite_convert model = Raise e →
         (TrainModel.save_all model reverse_mapping d).2 = Raise e
         ∧ TrainModel.model_tflite d' = TrainModel.model_tflite d).
Proof.
  intros d'.
  exists (dict_of (TrainModel.reverse_mapping_items reverse_mapping)).
  unfold d', TrainModel.save_all.
  split; [by destruct (TrainModel.tflite_convert model)|].
  split; [apply reverse_mapping_saved_lookup|].
  split.
  { intros key x Hk. unfold TrainModel.reverse_mapping_items in Hk.
    apply (reverse_mapping_saved reverse_mapping) in Hk as (i & -> & _); [|done].
    by exists i. }
  split; [apply reverse_mapping_saved_size|].
  split.
  { intros items Hperm. apply map_eq. intros key. apply option_eq. intros x.
    unfold TrainModel.reverse_mapping_items.
    by rewrite !(reverse_mapping_saved reverse_mapping). }
  split; [by destruct (TrainModel.tflite_convert model)|].
  split; [by destruct (TrainModel.tflite_convert model)|].
  split; [by destruct (TrainModel.tflite_convert model)|].
  intros e ->. done.
Qed.

Section main.
Import TrainModel.
Context `{Environment}.

(** The ways through [main]: the load raises; or the label table is
    written, the fit leaves its checkpoint, and Keras raises; or [save_all]
    runs on the fitted model.  [remap_labels] never raises. *)
Lemma main_inv base_path d d' out :
  main base_path d = (d', out) →
  (∃ e, load_hasy_dataset base_path = Raise e ∧ d' = d ∧ out = Raise e)
  ∨ ∃ rows images labels new_labels forward reverse checkpoint fitted,
      load_hasy_dataset base_path = Return (images, labels, rows)
      ∧ remap_labels labels = Some (new_labels, forward, reverse)
      ∧ keras_fit (length (np_unique labels)) images new_labels
        = (checkpoint, fitted)
      ∧ let d1 :=
          {| labels_json := Some (create_label_mapping (meta <$> rows));
             best_model_keras :=
               match checkpoint with
               | Some saved => Some saved
               | None => best_model_keras d
               end;
             model_keras := model_keras d;
             model_h5 := model_h5 d;
             reverse_mapping_json := reverse_mapping_json d;
             model_tflite := model_tflite d |} in
        (∃ e, fitted = Raise e ∧ d' = d1 ∧ out = Raise e)
        ∨ (∃ model, fitted = Return model
                    ∧ (d', out) = save_all model reverse d1).
Proof.
  unfold main.
  destruct (load_hasy_dataset base_path) as [e|[[images labels] rows]].
  { intros [= <- <-]. left. by exists e. }
  intros Hmain. right.
  destruct (remap_labels_returns labels) as [[[nl fwd] rev] Hr].
  rewrite Hr in Hmain. unfold train_model in Hmain.
  rewrite (remap_labels_new_labels_unique _ _ _ _ Hr) in Hmain.
  rewrite length_fmap, length_seq in Hmain.
  destruct (keras_fit _ images nl) as [checkpoint fitted] eqn:Hfit.
  exists rows, images, labels, nl, fwd, rev, checkpoint, fitted.
  split; [done|]. split; [done|]. split; [done|]. cbv zeta.
  cbn [labels_json best_model_keras model_keras model_h5
       reverse_mapping_json model_tflite] in Hmain.
  destruct fitted as [e|model].
  - left. injection Hmain as <- <-. by exists e.
  - right. by exists model.
Qed.
End main.

(** X8. When [main] completes, the files it leaves belong together:
    [labels.json] is the metadata map of the whole label table that
    [pd.read_csv] returned, both model files hold the model Keras fitted for
    as many classes as there are distinct identifiers among the loaded rows,
    [reverse_mapping.json] maps the rendering of each class position to its
    original identifier, the TFLite file is the conversion of that model,
    [best_model.keras] holds the checkpoint the fit last saved (the previous
    file when it saved none), and every loaded identifier has a metadata
    entry under its own rendering. *)
Theorem main_success_artifacts `{TrainModel.Environment}
    (base_path : string) (d d' : TrainModel.disk) :
  TrainModel.main base_path d = (d', Return ()) →
  ∃ rows images labels new_labels forward reverse checkpoint model
    label_map saved converted,
    TrainModel.pd_read_csv
      (TrainModel.os_path_join base_path "hasy-data-labels.csv")
    = Return rows
    ∧ TrainModel.load_hasy_dataset base_path = Return (images, labels, rows)
    ∧ TrainModel.remap_labels labels = Some (new_labels, forward, reverse)
    ∧ TrainModel.keras_fit (size (list_to_set labels : gset Z)) images new_labels
      = (checkpoint, Return model)
    ∧ TrainModel.tflite_convert model = Return converted
    ∧ d' = {| TrainModel.labels_json := Some label_map;
              TrainModel.best_model_keras :=
                match checkpoint with
                | Some saved_model => Some saved_model
                | None => TrainModel.best_model_keras d
                end;
              TrainModel.model_keras := Some model;
              TrainModel.model_h5 := Some model;
              TrainModel.reverse_mapping_json := Some saved;
              TrainModel.model_tflite := Some converted |}
    ∧ label_map
      = TrainModel.create_label_mapping (TrainModel.meta <$> rows)
    ∧ (∀ i : nat, saved !! pretty i = reverse !! i)
    ∧ size saved = size (list_to_set labels : gset Z)
    ∧ (∀ x, x ∈ labels → is_Some (label_map !! pretty x)).
Proof.
  intros Hmain.
  destruct (main_inv _ _ _ _ Hmain)
    as [(e & _ & _ & [=])
       |(rows & images & labels & nl & fwd & rev & checkpoint & fitted
         & Hload & Hr & Hfit & Hrest)].
  cbv zeta in Hrest.
  destruct Hrest as [(e & _ & _ & [=])|(model & -> & Hsave)].
  unfold TrainModel.save_all in Hsave. cbn in Hsave.
  destruct (TrainModel.tflite_convert model) as [e|converted] eqn:Hconv;
    [discriminate|].
  injection Hsave as ->.
  exists rows, images, labels, nl, fwd, rev, checkpoint, model.
  eexists _, _, converted.
  rewrite <- np_unique_length.
  pose proof Hload as Hload'.
  apply load_hasy_dataset_Return in Hload' as (Hread & Hl & _).
  split; [done|]. split; [done|]. split; [done|]. split; [done|].
  split; [done|].
  split; [reflexivity|]. split; [reflexivity|].
  split; [apply reverse_mapping_saved_lookup|].
  split.
  { rewrite reverse_mapping_saved_size.
    by destruct (remap_labels_tables _ _ _ _ Hr) as (_ & _ & _ & -> & _). }
  intros x Hx. apply elem_of_dom. rewrite create_label_mapping_dom.
  apply elem_of_list_to_set.
  pose proof (load_rows_labels _ _ _ _ Hl) as ->.
  apply list_elem_of_fmap in Hx as (row & -> & Hrow).
  apply list_elem_of_filter in Hrow as [_ Hrow].
  apply list_elem_of_fmap. exists (TrainModel.meta row). split; [done|].
  apply list_elem_of_fmap. by exists row.
Qed.

Lemma main_success_artifacts_witness :
  (TrainModel.main "data" Sample.empty_disk).2 = Return ()
  ∧ ∃ images labels new_labels forward reverse,
      TrainModel.load_hasy_dataset "data"
      = Return (images, labels, Sample.hasy_table)
      ∧ TrainModel.remap_labels labels = Some (new_labels, forward, reverse).
Proof.
  split; [vm_compute; reflexivity|].
  destruct (main_success_artifacts
              "data" Sample.empty_disk
              (TrainModel.main "data" Sample.empty_disk).1)
    as (rows & images & labels & nl & fwd & rev & _ & _ & _ & _ & _
        & Hread & Hload & Hr & _).
  - vm_compute. reflexivity.
  - exists images, labels, nl, fwd, rev. split; [|done].
    vm_compute in Hread. injection Hread as <-. exact Hload.
Defined.



(** X10. The two files [main] leaves use different key spaces.  For a class
    position [i] that [reverse_mapping.json] sends to the identifier [x],
    the metadata of [x] is stored in [labels.json] under the rendering of
    [x]; under the rendering of [i], the key the service looks up for
    class [i], there is an entry exactly when some row of the table has the
    identifier [i] itself, and that entry is built from the first such row.
    So the lookup by class position finds the symbol the class stands for
    only where [x] equals [i]. *)
Theorem main_metadata_keyed_by_identifier `{TrainModel.Environment}
    (base_path : string) (d d' : TrainModel.disk)
    (label_map : gmap string (gmap string string)) (saved : gmap string Z)
    (i : nat) (x : Z) :
  TrainModel.main base_path d = (d', Return ()) →
  TrainModel.labels_json d' = Some label_map →
  TrainModel.reverse_mapping_json d' = Some saved →
  saved !! pretty i = Some x →
  ∃ rows,
    TrainModel.pd_read_csv
      (TrainModel.os_path_join base_path "hasy-data-labels.csv")
    = Return rows
    ∧ (∃ row, row ∈ rows
              ∧ TrainModel.symbol_id (TrainModel.meta row) = x
              ∧ Statements.on_disk base_path row)
    ∧ is_Some (label_map !! pretty x)
    ∧ (is_Some (label_map !! pretty i)
       ↔ ∃ row, row ∈ rows
                ∧ TrainModel.symbol_id (TrainModel.meta row) = Z.of_nat i)
    ∧ (∀ entry, label_map !! pretty i = Some entry →
         ∃ i' row,
           rows !! i' = Some row
           ∧ TrainModel.symbol_id (TrainModel.meta row) = Z.of_nat i
           ∧ (∀ j row', (j < i')%nat → rows !! j = Some row' →
                TrainModel.symbol_id (TrainModel.meta row') ≠ Z.of_nat i)
           ∧ entry = TrainModel.make_entry (TrainModel.meta row)).
Proof.
  intros Hmain Hlm Hsaved Hi.
  destruct (main_inv _ _ _ _ Hmain)
    as [(e & _ & _ & [=])
       |(rows & images & labels & nl & fwd & rev & checkpoint & fitted
         & Hload & Hr & Hfit & Hrest)].
  cbv zeta in Hrest.
  destruct Hrest as [(e & _ & _ & [=])|(model & -> & Hsave)].
  unfold TrainModel.save_all in Hsave. cbn in Hsave.
  destruct (TrainModel.tflite_convert model) as [e|converted];
    [discriminate|].
  injection Hsave as ->. cbn in Hlm, Hsaved.
  injection Hlm as <-. injection Hsaved as <-.
  rewrite reverse_mapping_saved_lookup in Hi.
  destruct (remap_labels_tables _ _ _ _ Hr) as (_ & Hv & _ & _ & _).
  apply Hv in Hi.
  assert (x ∈ labels) as Hx.
  { apply np_unique_elem_of, list_elem_of_lookup. by exists i. }
  apply load_hasy_dataset_Return in Hload as (Hread & Hl & _).
  pose proof (load_rows_labels _ _ _ _ Hl) as ->.
  apply list_elem_of_fmap in Hx as (row & -> & Hrow).
  apply list_elem_of_filter in Hrow as [Hdisk Hrow].
  assert (∀ z : Z,
            is_Some (TrainModel.create_label_mapping (TrainModel.meta <$> rows)
                       !! pretty z)
            ↔ ∃ row, row ∈ rows
                     ∧ TrainModel.symbol_id (TrainModel.meta row) = z) as Hdom.
  { intros z. rewrite <- elem_of_dom, create_label_mapping_dom.
    rewrite elem_of_list_to_set, list_elem_of_fmap. split.
    - intros (r & Hz & Hin). apply (inj pretty) in Hz.
      apply list_elem_of_fmap in Hin as (row' & -> & Hin). by exists row'.
    - intros (row' & Hin & <-). exists (TrainModel.meta row'). split; [done|].
      apply list_elem_of_fmap. by exists row'. }
  exists rows. split; [done|].
  split; [by exists row|]. split; [apply Hdom; by exists row|].
  rewrite <- (pretty_nat_Z i). split; [apply Hdom|].
  intros entry Hentry.
  apply create_label_mapping_lookup_first in Hentry
    as (j & r & Hj & Hkey & Hfirst & ->).
  apply (inj pretty) in Hkey.
  rewrite list_lookup_fmap in Hj.
  destruct (rows !! j) as [row'|] eqn:Hrow'; [|discriminate].
  injection Hj as <-.
  exists j, row'. split; [done|]. split; [done|]. split; [|done].
  intros j' row'' Hlt Hj'. rewrite Hkey. apply (Hfirst j' (TrainModel.meta row'')).
  - done.
  - by rewrite list_lookup_fmap, Hj'.
Qed.

Lemma main_metadata_keyed_by_identifier_witness :
  (TrainModel.main "data" Sample.empty_disk).2 = Return ()
  ∧ ¬ (∃ row, row ∈ Sample.hasy_table
              ∧ TrainModel.symbol_id (TrainModel.meta row) = Z.of_nat 0)
  ∧ ∃ row, row ∈ Sample.hasy_table
           ∧ TrainModel.symbol_id (TrainModel.meta row) = 7.
Proof.
  split; [vm_compute; reflexivity|].
  destruct (main_metadata_keyed_by_identifier
              "data" Sample.empty_disk
              (TrainModel.main "data" Sample.empty_disk).1
              (TrainModel.create_label_mapping
                 (TrainModel.meta <$> Sample.hasy_table))
              (dict_of [("0", 7); ("1", 31)])
              0%nat 7)
    as (rows & Hread & (row & Hrow & Hid & _) & _ & Hzero & _);
    [vm_compute; reflexivity..|].
  vm_compute in Hread. injection Hread as <-.
  split.
  - intros Hex. apply Hzero in Hex as [entry Hentry].
    vm_compute in Hentry. discriminate.
  - by exists row.
Defined.

(** * Part IV: further properties of the inference service *)

Section service.
Import WebApp Statements.
Context `{Libraries}.

(** What [preprocess_image] returns is well formed; what it raises is a
    Pillow failure under its own prefix. *)
Lemma preprocess_image_cases file :
  (∃ img_array,
     preprocess_image file = Return img_array ∧ well_formed_input img_array)
  ∨ (∃ e,
       preprocess_image file = Raise ("Error preprocessing image: " +:+ e)
       ∧ (Image_open (read file) = Raise e
          ∨ (∃ img, Image_open (read file) = Return img
                    ∧ (Image_convert img "L" = Raise e
                       ∨ ∃ img_L, Image_convert img "L" = Return img_L
                                  ∧ Image_resize img_L (32, 32)%nat = Raise e)))).
Proof.
  unfold preprocess_image.
  destruct (Image_open (read file)) as [e|img] eqn:Hopen; cbn [mbind exn_bind].
  { right. exists e. split; [done|]. by left. }
  destruct (Image_convert img "L") as [e|img_L] eqn:Hconv; cbn [mbind exn_bind].
  { right. exists e. split; [done|]. right. exists img. split; [done|]. by left. }
  destruct (Image_resize img_L (32, 32)%nat) as [e|img_32] eqn:Hres;
    cbn [mbind exn_bind].
  { right. exists e. split; [done|]. right. exists img. split; [done|].
    right. by exists img_L. }
  left. destruct (resize_L_array _ _ _ _ _ Hconv Hres) as [_ Hlen].
  unfold np_reshape, np_truediv. cbn [data shape].
  rewrite length_fmap, Hlen, bool_decide_eq_true_2 by reflexivity.
  eexists. split; [reflexivity|]. unfold well_formed_input. cbn [data shape].
  split; [done|]. split; [by rewrite length_fmap|].
  apply Forall_fmap, Forall_forall. intros p _.
  apply byte_over_255_in_unit_interval.
Qed.

(** [np.argmax] answers a position of the array. *)
Lemma argmax_from_bound mp max_ind i ip :
  (max_ind < i)%nat →
  (argmax_from mp max_ind i ip < i + length ip)%nat.
Proof.
  revert mp max_ind i. induction ip as [|v ip IH]; intros mp max_ind i Hlt;
    cbn [argmax_from length].
  - lia.
  - destruct (negb _).
    + destruct (PrimFloat.is_nan v); [lia|].
      specialize (IH v i (S i)). lia.
    + specialize (IH mp max_ind (S i)). lia.
Qed.

Lemma np_argmax_bound row top_idx :
  np_argmax row = Return top_idx → (top_idx < length row)%nat.
Proof.
  destruct row as [|v row]; [discriminate|]. cbn [np_argmax length].
  intros [= <-]. destruct (PrimFloat.is_nan v); [lia|].
  pose proof (argmax_from_bound v 0 1 row). lia.
Qed.

Lemma np_argmax_nonempty row :
  row ≠ [] → ∃ top_idx, np_argmax row = Return top_idx.
Proof. destruct row; [done|]. intros _. by eexists. Qed.

(** Every run of the handler is one of six. *)
Lemma predict_cases g request :
  (model g = None ∧ predict g request = ([], model_not_loaded))
  ∨ (∃ m, model g = Some m
          ∧ (files request !! "image" = None
             ∨ ∃ file, files request !! "image" = Some file ∧ filename file = "")
          ∧ predict g request = ([], no_image_provided))
  ∨ (∃ m file e,
       names_image g request m file
       ∧ preprocess_image file = Raise e
       ∧ predict g request = ([], internal_error e))
  ∨ (∃ m file img_array,
       names_image g request m file
       ∧ preprocess_image file = Return img_array
       ∧ prefilter_rejects
           (np_std (np_squeeze img_array))
           (np_mean_bool (np_less (np_squeeze img_array) 0.85)) = true
       ∧ predict g request = ([], unrecognized))
  ∨ (∃ m file img_array e,
       names_image g request m file
       ∧ preprocess_image file = Return img_array
       ∧ prefilter_rejects
           (np_std (np_squeeze img_array))
           (np_mean_bool (np_less (np_squeeze img_array) 0.85)) = false
       ∧ (model_predict m img_array = Raise e
          ∨ (model_predict m img_array = Return []
             ∧ e = "index out of bounds")
          ∨ (∃ rest, model_predict m img_array = Return ([] :: rest)
                     ∧ e = "attempt to get argmax of an empty sequence"))
       ∧ predict g request = ([img_array], internal_error e))
  ∨ (∃ img_array top_idx top_confidence,
       model_answers g request img_array top_idx top_confidence).
Proof.
  unfold predict, predict_try.
  destruct (model g) as [m|] eqn:Hm; [|by left].
  right.
  destruct (files request !! "image") as [file|] eqn:Hfile;
    [|left; exists m; split; [done|]; split; [by left|done]].
  case_bool_decide as Hname.
  { left. exists m. split; [done|]. split; [|done]. right. by exists file. }
  right.
  assert (names_image g request m file) as Hnames by done.
  destruct (preprocess_image file) as [e|img] eqn:Hpre;
    cbn [lift mbind io_bind outcome model_calls].
  { left. by exists m, file, e. }
  right.
  destruct (prefilter_rejects _ _) eqn:Hpass.
  { left. by exists m, file, img. }
  right. unfold call_predict.
  destruct (model_predict m img) as [e|predictions] eqn:Hpred;
    cbn [lift mbind io_bind outcome model_calls].
  { left. exists m, file, img, e. do 3 (split; [done|]). split; [by left|done]. }
  destruct predictions as [|row rest]; cbn [getitem lookup list_lookup];
    cbn [lift mbind io_bind outcome model_calls].
  { left. exists m, file, img, "index out of bounds".
    do 3 (split; [done|]). split; [right; by left|done]. }
  destruct row as [|v row].
  { left. exists m, file, img, "attempt to get argmax of an empty sequence".
    do 3 (split; [done|]). split; [|done]. right. right. by exists rest. }
  right.
  destruct (np_argmax (v :: row)) as [e|top_idx] eqn:Hidx; [discriminate|].
  pose proof (np_argmax_bound _ _ Hidx) as Hlt.
  apply lookup_lt_is_Some in Hlt as [top_confidence Hconf].
  exists img, top_idx, top_confidence.
  destruct Hnames as (? & ? & ?).
  by exists m, file, (((v :: row)) :: rest), (v :: row).
Qed.
End service.

(** X11. With a model loaded, a request without an [image] file, or with
    one whose file name is empty, is answered 400 with [success] false,
    whatever the upload holds, and the model is not called. *)
Theorem predict_no_image_bad_request `{WebApp.Libraries}
    (g : WebApp.globals) (request : WebApp.Request) (m : WebApp.Model) :
  WebApp.model g = Some m →
  (WebApp.files request !! "image" = None
   ∨ ∃ file, WebApp.files request !! "image" = Some file
             ∧ WebApp.filename file = "") →
  WebApp.predict g request
  = ([],
     WebApp.Response
       [ ("success", WebApp.JBool false);
         ("error", WebApp.JString "No image provided in the request.") ]
       400).
Proof.
  intros Hm Hfile. unfold WebApp.predict, WebApp.predict_try. rewrite Hm.
  destruct Hfile as [->|(file & -> & Hname)]; [done|].
  by rewrite bool_decide_eq_true_2.
Qed.

Lemma predict_no_image_bad_request_witness :
  WebApp.predict Sample.service Sample.empty_request
  = ([],
     WebApp.Response
       [ ("success", WebApp.JBool false);
         ("error", WebApp.JString "No image provided in the request.") ]
       400).
Proof.
  apply (predict_no_image_bad_request
           Sample.service Sample.empty_request Sample.classifier).
  - reflexivity.
  - left. vm_compute. reflexivity.
Defined.

(** X12. With a model loaded and a named upload, a failure of Pillow at any
    stage (opening, conversion to grey, resizing) makes [preprocess_image]
    raise with the message of the failure under its own prefix, and the
    handler answers 500 with [success] false and that message wrapped once
    more; the model is not called.  [preprocess_image] raises in no other
    way. *)
Theorem predict_undecodable_upload `{WebApp.Libraries}
    (g : WebApp.globals) (request : WebApp.Request)
    (m : WebApp.Model) (file : WebApp.FileStorage) (e : string) :
  Statements.names_image g request m file →
  (WebApp.Image_open (WebApp.read file) = Raise e
   ∨ ∃ img, WebApp.Image_open (WebApp.read file) = Return img
            ∧ (WebApp.Image_convert img "L" = Raise e
               ∨ ∃ img_L,
                   WebApp.Image_convert img "L" = Return img_L
                   ∧ WebApp.Image_resize img_L (32, 32)%nat = Raise e)) →
  WebApp.preprocess_image file = Raise ("Error preprocessing image: " +:+ e)
  ∧ WebApp.predict g request
    = ([],
       WebApp.Response
         [ ("success", WebApp.JBool false);
           ("error",
            WebApp.JString ("An internal server error occurred: "
                            +:+ ("Error preprocessing image: " +:+ e))) ]
         500)
  ∧ (∀ msg, WebApp.preprocess_image file = Raise msg →
       msg = "Error preprocessing image: " +:+ e).
Proof.
  intros (Hm & Hfile & Hname) Hfail.
  assert (WebApp.preprocess_image file
          = Raise ("Error preprocessing image: " +:+ e)) as Hpre.
  { unfold WebApp.preprocess_image.
    destruct Hfail as [->|(img & -> & [Hconv|(img_L & Hconv & Hres)])];
      cbn [mbind exn_bind]; [done| |].
    - by rewrite Hconv.
    - rewrite Hconv. cbn [mbind exn_bind]. by rewrite Hres. }
  split; [exact Hpre|]. split.
  - unfold WebApp.predict, WebApp.predict_try. rewrite Hm, Hfile.
    rewrite bool_decide_eq_false_2 by done. by rewrite Hpre.
  - intros msg Hmsg. congruence.
Qed.

Lemma predict_undecodable_upload_witness :
  WebApp.predict Sample.service Sample.empty_upload_request
  = ([],
     WebApp.Response
       [ ("success", WebApp.JBool false);
         ("error",
          WebApp.JString
            "An internal server error occurred: Error preprocessing image: cannot identify image file") ]
       500).
Proof.
  destruct (@predict_undecodable_upload Sample.libraries
              Sample.service Sample.empty_upload_request Sample.classifier
              {| WebApp.filename := "empty.png"; WebApp.read := [] |}
              "cannot identify image file")
    as (_ & Hresp & _).
  - split; [reflexivity|]. split; [vm_compute; reflexivity|discriminate].
  - left. reflexivity.
  - exact Hresp.
Defined.

(** X13. When the model itself raises on an image that passed the
    pre-filter, the handler answers 500 with [success] false and the
    model's message; the model has been called once, on the preprocessed
    image.  The same status is given when the model returns an empty batch
    or an empty first row. *)
Theorem predict_model_failure `{WebApp.Libraries}
    (g : WebApp.globals) (request : WebApp.Request)
    (m : WebApp.Model) (file : WebApp.FileStorage)
    (img_array : WebApp.ndarray float) :
  Statements.names_image g request m file →
  WebApp.preprocess_image file = Return img_array →
  WebApp.prefilter_rejects
    (WebApp.np_std (WebApp.np_squeeze img_array))
    (WebApp.np_mean_bool (WebApp.np_less (WebApp.np_squeeze img_array) 0.85))
  = false →
  (∀ e, WebApp.model_predict m img_array = Raise e →
        WebApp.predict g request
        = ([img_array],
           WebApp.Response
             [ ("success", WebApp.JBool false);
               ("error",
                WebApp.JString ("An internal server error occurred: " +:+ e)) ]
             500))
  ∧ (∀ predictions,
       WebApp.model_predict m img_array = Return predictions →
       predictions = [] ∨ (∃ rest, predictions = [] :: rest) →
       (WebApp.predict g request).1 = [img_array]
       ∧ WebApp.status_code (WebApp.predict g request).2 = 500%nat
       ∧ ("success", WebApp.JBool false)
         ∈ WebApp.body (WebApp.predict g request).2).
Proof.
  intros (Hm & Hfile & Hname) Hpre Hpass.
  unfold WebApp.predict, WebApp.predict_try. rewrite Hm, Hfile.
  rewrite bool_decide_eq_false_2 by done. rewrite Hpre.
  cbn [WebApp.lift mbind WebApp.io_bind WebApp.outcome WebApp.model_calls].
  rewrite Hpass. unfold WebApp.call_predict. split.
  - intros e ->. done.
  - intros predictions -> [->|(rest & ->)];
      cbn; (split; [done|]); (split; [done|]); by left.
Qed.

Lemma predict_model_failure_witness :
  WebApp.predict
    (WebApp.Globals (Some Sample.failing_classifier) Sample.alpha_labels)
    Sample.request
  = ([Sample.img_array],
     WebApp.Response
       [ ("success", WebApp.JBool false);
         ("error",
          WebApp.JString
            "An internal server error occurred: Graph execution error") ]
       500).
Proof.
  apply (predict_model_failure
           (WebApp.Globals (Some Sample.failing_classifier) Sample.alpha_labels)
           Sample.request Sample.failing_classifier Sample.upload
           Sample.img_array).
  - split; [reflexivity|]. split; [vm_compute; reflexivity|discriminate].
  - vm_compute. reflexivity.
  - vm_compute. reflexivity.
  - reflexivity.
Defined.

Section service_invariants.
Import WebApp Statements.
Context `{Libraries}.

Lemma preprocess_image_well_formed file img_array :
  preprocess_image file = Return img_array → well_formed_input img_array.
Proof.
  intros Hpre.
  destruct (preprocess_image_cases file) as [(a & Ha & Hwf)|(e & He & _)];
    congruence.
Qed.

(** A NaN is neither above nor below anything. *)
Lemma leb_nan_false (t c : float) :
  PrimFloat.is_nan c = true → PrimFloat.leb t c = false.
Proof.
  unfold PrimFloat.is_nan. rewrite negb_true_iff.
  rewrite FloatAxioms.eqb_spec, FloatAxioms.leb_spec. unfold SFeqb, SFleb.
  destruct (Prim2SF c) as [s|s| |s m e]; cbn.
  - discriminate.
  - by destruct s.
  - intros _. by destruct (Prim2SF t).
  - rewrite Z.compare_refl, Pos.compare_cont_refl. by destruct s.
Qed.

(** The response once the model has answered, spelled out. *)
Lemma predict_answer g request img_array top_idx top_confidence :
  model_answers g request img_array top_idx top_confidence →
  (labels g !! pretty top_idx = None
   ∧ predict g request = ([img_array], label_mismatch top_idx))
  ∨ ∃ symbol_info,
      labels g !! pretty top_idx = Some symbol_info
      ∧ let u := default "" (symbol_info !! "unicode") in
        let l := default "" (symbol_info !! "latex") in
        (PrimFloat.leb CONFIDENCE_THRESHOLD top_confidence = false
         ∧ predict g request = ([img_array], unrecognized))
        ∨ (PrimFloat.leb CONFIDENCE_THRESHOLD top_confidence = true
           ∧ u = "" ∧ l = ""
           ∧ predict g request = ([img_array], data_error_both_empty))
        ∨ (PrimFloat.leb CONFIDENCE_THRESHOLD top_confidence = true
           ∧ (u ≠ "" ∨ l ≠ "")
           ∧ predict g request = ([img_array], recognized u l top_confidence)).
Proof.
  intros Hrun. rewrite (predict_model_answers _ _ _ _ _ Hrun).
  destruct (labels g !! pretty top_idx) as [symbol_info|]; [|by left].
  right. exists symbol_info. split; [done|]. cbv zeta.
  destruct (PrimFloat.leb _ _); [|by left]. right.
  destruct (decide (default "" (symbol_info !! "unicode") = "")) as [Hu|Hu];
    [destruct (decide (default "" (symbol_info !! "latex") = "")) as [Hl|Hl]|].
  - left. by rewrite !bool_decide_eq_true_2.
  - right. rewrite (bool_decide_eq_false_2 (_ = "") Hl), andb_false_r. auto.
  - right. rewrite (bool_decide_eq_false_2 (_ = "") Hu). auto.
Qed.
End service_invariants.

(** Membership of a field in a response body that is written out. *)
Ltac body_field :=
  cbn; unfold WebApp.jsonify; rewrite ?elem_of_cons, ?elem_of_nil;
  first
    [ by repeat first [left; reflexivity | right]
    | let Hin := fresh in
      intros Hin; repeat destruct Hin as [Hin|Hin]; (discriminate || done) ].

(** X14. Every answer of [predict] has status 200, 400 or 500; its
    [success] field is true exactly on 200 and false otherwise; the model
    is called at most once per request, and never on a request answered
    400. *)
Theorem predict_status_and_success `{WebApp.Libraries}
    (g : WebApp.globals) (request : WebApp.Request) :
  let calls := (WebApp.predict g request).1 in
  let resp := (WebApp.predict g request).2 in
  ((WebApp.status_code resp = 200%nat
    ∧ ("success", WebApp.JBool true) ∈ WebApp.body resp
    ∧ ("success", WebApp.JBool false) ∉ WebApp.body resp)
   ∨ ((WebApp.status_code resp = 400%nat ∧ calls = []
       ∨ WebApp.status_code resp = 500%nat)
      ∧ ("success", WebApp.JBool false) ∈ WebApp.body resp
      ∧ ("success", WebApp.JBool true) ∉ WebApp.body resp))
  ∧ (length calls ≤ 1)%nat.
Proof.
  intros calls resp. unfold calls, resp. clear calls resp.
  destruct (predict_cases g request)
    as [[_ ->]
       |[(m & _ & _ & ->)
        |[(m & file & e & _ & _ & ->)
         |[(m & file & img & _ & _ & _ & ->)
          |[(m & file & img & e & _ & _ & _ & _ & ->)
           |(img & top_idx & c & Hrun)]]]]].
  - split; [|cbn; lia]. right. split; [by right|]. split; body_field.
  - split; [|cbn; lia]. right. split; [by left|]. split; body_field.
  - split; [|cbn; lia]. right. split; [by right|]. split; body_field.
  - split; [|cbn; lia]. left. split; [done|]. split; body_field.
  - split; [|cbn; lia]. right. split; [by right|]. split; body_field.
  - destruct (predict_answer _ _ _ _ _ Hrun)
      as [[_ ->]|(info & _ & [[_ ->]|[(_ & _ & _ & ->)|(_ & _ & ->)]])].
    + split; [|cbn; lia]. right. split; [by right|]. split; body_field.
    + split; [|cbn; lia]. left. split; [done|]. split; body_field.
    + split; [|cbn; lia]. right. split; [by right|]. split; body_field.
    + split; [|cbn; lia]. left. split; [done|]. split; body_field.
Qed.

(** X15. An array is handed to [model.predict] only when a model is loaded,
    and it is then the preprocessed upload: of shape 1 x 32 x 32 x 1, with
    1024 elements between 0 and 1, and not rejected by the pre-filter. *)
Theorem predict_model_input `{WebApp.Libraries}
    (g : WebApp.globals) (request : WebApp.Request)
    (x : WebApp.ndarray float) :
  x ∈ (WebApp.predict g request).1 →
  (WebApp.predict g request).1 = [x]
  ∧ is_Some (WebApp.model g)
  ∧ Statements.well_formed_input x
  ∧ WebApp.prefilter_rejects
      (WebApp.np_std (WebApp.np_squeeze x))
      (WebApp.np_mean_bool (WebApp.np_less (WebApp.np_squeeze x) 0.85))
    = false
  ∧ ∃ file, WebApp.files request !! "image" = Some file
            ∧ WebApp.preprocess_image file = Return x.
Proof.
  destruct (predict_cases g request)
    as [[_ ->]
       |[(m & _ & _ & ->)
        |[(m & file & e & _ & _ & ->)
         |[(m & file & img & _ & _ & _ & ->)
          |[(m & file & img & e & (Hm & Hfile & _) & Hpre & Hpass & _ & ->)
           |(img & top_idx & c & Hrun)]]]]];
    cbn [fst]; try (intros Hx; by apply elem_of_nil in Hx).
  - intros Hx. apply list_elem_of_singleton in Hx as ->.
    split; [done|]. split; [by rewrite Hm|].
    split; [by eapply preprocess_image_well_formed|]. split; [done|].
    by exists file.
  - rewrite (predict_model_answers _ _ _ _ _ Hrun). cbn [fst].
    intros Hx. apply list_elem_of_singleton in Hx as ->.
    destruct Hrun as (m & file & ? & ? & Hm & Hfile & _ & Hpre & Hpass & _).
    split; [done|]. split; [by rewrite Hm|].
    split; [by eapply preprocess_image_well_formed|]. split; [done|].
    by exists file.
Qed.

Lemma predict_model_input_witness :
  Sample.img_array ∈ (WebApp.predict Sample.service Sample.request).1
  ∧ Statements.well_formed_input Sample.img_array.
Proof.
  assert (Sample.img_array ∈ (WebApp.predict Sample.service Sample.request).1)
    as Hin.
  { replace (WebApp.predict Sample.service Sample.request).1
      with [Sample.img_array] by (vm_compute; reflexivity).
    by left. }
  split; [exact Hin|].
  by destruct (predict_model_input _ _ _ Hin) as (_ & _ & Hwf & _).
Defined.

(** X16. After a model answer with a non-empty first row the handler
    always reaches the label lookup: [np.argmax] gives a position inside
    the row, so reading the confidence at that position cannot fail. *)
Theorem predict_reaches_label_lookup `{WebApp.Libraries}
    (g : WebApp.globals) (request : WebApp.Request)
    (m : WebApp.Model) (file : WebApp.FileStorage)
    (img_array : WebApp.ndarray float)
    (row : list float) (rest : list (list float)) :
  Statements.names_image g request m file →
  WebApp.preprocess_image file = Return img_array →
  WebApp.prefilter_rejects
    (WebApp.np_std (WebApp.np_squeeze img_array))
    (WebApp.np_mean_bool (WebApp.np_less (WebApp.np_squeeze img_array) 0.85))
  = false →
  WebApp.model_predict m img_array = Return (row :: rest) →
  row ≠ [] →
  ∃ top_idx top_confidence,
    WebApp.np_argmax row = Return top_idx
    ∧ (top_idx < length row)%nat
    ∧ row !! top_idx = Some top_confidence
    ∧ Statements.model_answers g request img_array top_idx top_confidence.
Proof.
  intros (Hm & Hfile & Hname) Hpre Hpass Hpred Hrow.
  destruct (np_argmax_nonempty row Hrow) as [top_idx Hidx].
  pose proof (np_argmax_bound _ _ Hidx) as Hlt.
  destruct (lookup_lt_is_Some_2 _ _ Hlt) as [top_confidence Hconf].
  exists top_idx, top_confidence. do 3 (split; [done|]).
  by exists m, file, (row :: rest), row.
Qed.

Lemma predict_reaches_label_lookup_witness :
  ∃ top_idx top_confidence,
    Statements.model_answers Sample.service Sample.request Sample.img_array
      top_idx top_confidence.
Proof.
  destruct (predict_reaches_label_lookup
              Sample.service Sample.request Sample.classifier Sample.upload
              Sample.img_array [0.03125; 0.9375; 0.03125]%float [])
    as (top_idx & c & _ & _ & _ & Hrun).
  - split; [reflexivity|]. split; [vm_compute; reflexivity|discriminate].
  - vm_compute. reflexivity.
  - vm_compute. reflexivity.
  - reflexivity.
  - discriminate.
  - by exists top_idx, c.
Defined.

(** X17. A service whose label file failed to load at start-up never
    answers [recognized]: its only 200 answer is the pre-filter's
    [unrecognized], given without calling the model; every request that
    reaches the model is answered 500. *)
Theorem predict_without_labels `{WebApp.Libraries}
    (loaded_model : exn WebApp.Model) (e : string)
    (request : WebApp.Request) :
  let g := WebApp.startup loaded_model (Raise e) in
  WebApp.labels g = ∅
  ∧ (WebApp.predict g request = ([], WebApp.unrecognized)
     ∨ (WebApp.status_code (WebApp.predict g request).2 = 400%nat
        ∧ (WebApp.predict g request).1 = [])
     ∨ WebApp.status_code (WebApp.predict g request).2 = 500%nat).
Proof.
  intros g. split; [done|].
  destruct (predict_cases g request)
    as [[_ ->]
       |[(m & _ & _ & ->)
        |[(m & file & e' & _ & _ & ->)
         |[(m & file & img & _ & _ & _ & ->)
          |[(m & file & img & e' & _ & _ & _ & _ & ->)
           |(img & top_idx & c & Hrun)]]]]];
    [by right; right|by right; left|by right; right|by left|by right; right|].
  right. right.
  destruct (predict_answer _ _ _ _ _ Hrun) as [[_ ->]|(info & Hinfo & _)];
    [done|].
  unfold g in Hinfo. cbn in Hinfo. by rewrite lookup_empty in Hinfo.
Qed.

(** X18. On an image that preprocesses, the foreground fraction is a
    multiple of 1/1024 and never equal to 0.02 or to 0.60: for the arrays
    the handler sees, reading the two bounds of the pre-filter as strict or
    as inclusive makes no difference, to either comparison or to the
    pre-filter as a whole. *)
Theorem predict_foreground_fraction_off_boundary `{WebApp.Libraries}
    (file : WebApp.FileStorage) (img_array : WebApp.ndarray float) :
  WebApp.preprocess_image file = Return img_array →
  let foreground_fraction :=
    WebApp.np_mean_bool (WebApp.np_less (WebApp.np_squeeze img_array) 0.85) in
  foreground_fraction ≠ 0.02%float
  ∧ foreground_fraction ≠ 0.60%float
  ∧ PrimFloat.ltb foreground_fraction 0.02
    = PrimFloat.leb foreground_fraction 0.02
  ∧ PrimFloat.ltb 0.60 foreground_fraction
    = PrimFloat.leb 0.60 foreground_fraction
  ∧ (∀ std_dev,
       WebApp.prefilter_rejects std_dev foreground_fraction
       = PrimFloat.ltb std_dev 0.05
         || PrimFloat.leb foreground_fraction 0.02
         || PrimFloat.leb 0.60 foreground_fraction)
  ∧ ∃ count, (count ≤ 1024)%nat
             ∧ count
               = length (filter (λ v, PrimFloat.ltb v 0.85 = true)
                           (WebApp.data img_array))
             ∧ foreground_fraction
               = PrimFloat.div (WebApp.float_of_nat count)
                               (WebApp.float_of_nat 1024).
Proof.
  intros Hpre ff.
  pose proof (preprocess_image_length _ _ Hpre) as Hlen.
  assert (length (WebApp.data
                    (WebApp.np_less (WebApp.np_squeeze img_array) 0.85))
          = 1024%nat) as Hlen'.
  { cbn. by rewrite length_fmap. }
  destruct (foreground_fraction_off_boundary _ Hlen') as [Hmin Hmax].
  fold ff in Hmin, Hmax.
  assert (∃ count, (count ≤ 1024)%nat
                   ∧ count
                     = length (filter (λ v, PrimFloat.ltb v 0.85 = true)
                                 (WebApp.data img_array))
                   ∧ ff = PrimFloat.div (WebApp.float_of_nat count)
                                        (WebApp.float_of_nat 1024)) as Hcount.
  { eexists. split; [|split; [reflexivity|]].
    - rewrite <- Hlen. apply length_filter.
    - unfold ff. rewrite np_mean_bool_np_less.
      cbn [WebApp.np_squeeze WebApp.data]. by rewrite Hlen. }
  split; [done|]. split; [done|].
  destruct Hcount as (count & Hle & Hcnt & Hff).
  assert (Forall
            (λ c, PrimFloat.ltb
                    (PrimFloat.div (WebApp.float_of_nat c)
                                   (WebApp.float_of_nat 1024)) 0.02
                  = PrimFloat.leb
                      (PrimFloat.div (WebApp.float_of_nat c)
                                     (WebApp.float_of_nat 1024)) 0.02
                  ∧ PrimFloat.ltb 0.60
                      (PrimFloat.div (WebApp.float_of_nat c)
                                     (WebApp.float_of_nat 1024))
                    = PrimFloat.leb 0.60
                        (PrimFloat.div (WebApp.float_of_nat c)
                                       (WebApp.float_of_nat 1024)))
            (seq 0 1025)) as Hall.
  { match goal with
    | |- ?P => apply (bool_decide_eq_true_1 P)
    end.
    vm_compute. reflexivity. }
  rewrite Forall_forall in Hall.
  destruct (Hall count) as [H1 H2]; [apply elem_of_seq; lia|].
  rewrite <- Hff in H1, H2.
  split; [done|]. split; [done|]. split; [|by exists count].
  intros std_dev.
  unfold WebApp.prefilter_rejects, WebApp.MIN_STD_DEV,
    WebApp.MIN_FOREGROUND_FRACTION, WebApp.MAX_FOREGROUND_FRACTION.
  by rewrite H1, H2.
Qed.

Lemma predict_foreground_fraction_off_boundary_witness :
  WebApp.preprocess_image Sample.upload = Return Sample.img_array
  ∧ PrimFloat.ltb
      (WebApp.np_mean_bool
         (WebApp.np_less (WebApp.np_squeeze Sample.img_array) 0.85)) 0.02
    = PrimFloat.leb
        (WebApp.np_mean_bool
           (WebApp.np_less (WebApp.np_squeeze Sample.img_array) 0.85)) 0.02.
Proof.
  assert (WebApp.preprocess_image Sample.upload = Return Sample.img_array)
    as Hpre by (vm_compute; reflexivity).
  split; [exact Hpre|].
  by destruct (predict_foreground_fraction_off_boundary _ _ Hpre)
    as (_ & _ & Hmin & _).
Defined.

(** X19. A confidence that is not a number is never recognized: when the
    model has answered a class the label table knows with a NaN
    confidence, the answer is [unrecognized] with [success] true. *)
Theorem predict_nan_confidence `{WebApp.Libraries}
    (g : WebApp.globals) (request : WebApp.Request)
    (img_array : WebApp.ndarray float)
    (top_idx : nat) (top_confidence : float) :
  Statements.model_answers g request img_array top_idx top_confidence →
  PrimFloat.is_nan top_confidence = true →
  is_Some (WebApp.labels g !! pretty top_idx) →
  WebApp.predict g request = ([img_array], WebApp.unrecognized).
Proof.
  intros Hrun Hnan [info Hinfo].
  rewrite (predict_model_answers _ _ _ _ _ Hrun), Hinfo. cbv zeta.
  by rewrite (leb_nan_false _ _ Hnan).
Qed.

Lemma predict_nan_confidence_witness :
  WebApp.predict Sample.nan_service Sample.request
  = ([Sample.img_array], WebApp.unrecognized).
Proof.
  apply (predict_nan_confidence
           Sample.nan_service Sample.request Sample.img_array 0 PrimFloat.nan).
  - exists Sample.nan_classifier, Sample.upload,
      [[PrimFloat.nan]], [PrimFloat.nan].
    repeat split; try (vm_compute; reflexivity). discriminate.
  - vm_compute. reflexivity.
  - eexists. vm_compute. reflexivity.
Defined.

(** X20. [recognized] is answered only after the model was called on the
    preprocessed upload and gave a class that the label table knows, with
    a confidence of at least 0.85 and with a Unicode or LaTeX string that
    is not empty; the answer carries those strings and the confidence
    times 100, with status 200. *)
Theorem predict_recognized_only_if `{WebApp.Libraries}
    (g : WebApp.globals) (request : WebApp.Request) :
  ("status", WebApp.JString "recognized")
    ∈ WebApp.body (WebApp.predict g request).2 →
  ∃ img_array top_idx top_confidence symbol_info,
    Statements.model_answers g request img_array top_idx top_confidence
    ∧ WebApp.labels g !! pretty top_idx = Some symbol_info
    ∧ PrimFloat.leb 0.85 top_confidence = true
    ∧ (default "" (symbol_info !! "unicode") ≠ ""
       ∨ default "" (symbol_info !! "latex") ≠ "")
    ∧ WebApp.predict g request
      = ([img_array],
         Statements.recognized
           (default "" (symbol_info !! "unicode"))
           (default "" (symbol_info !! "latex"))
           top_confidence).
Proof.
  destruct (predict_cases g request)
    as [[_ ->]
       |[(m & _ & _ & ->)
        |[(m & file & e & _ & _ & ->)
         |[(m & file & img & _ & _ & _ & ->)
          |[(m & file & img & e & _ & _ & _ & _ & ->)
           |(img & top_idx & c & Hrun)]]]]];
    try body_field.
  destruct (predict_answer _ _ _ _ _ Hrun)
    as [[_ ->]|(info & Hinfo & [[_ ->]|[(_ & _ & _ & ->)|(Hc & Hne & Hp)]])];
    try body_field.
  intros _. by exists img, top_idx, c, info.
Qed.

Lemma predict_recognized_only_if_witness :
  ("status", WebApp.JString "recognized")
    ∈ WebApp.body (WebApp.predict Sample.service Sample.request).2
  ∧ ∃ (top_idx : nat) symbol_info,
      WebApp.labels Sample.service !! pretty top_idx = Some symbol_info.
Proof.
  assert (("status", WebApp.JString "recognized")
            ∈ WebApp.body (WebApp.predict Sample.service Sample.request).2)
    as Hin.
  { replace (WebApp.predict Sample.service Sample.request).2
      with (Statements.recognized "α" "\alpha" 0.9375)
      by (vm_compute; reflexivity).
    right. left. }
  split; [exact Hin|].
  destruct (predict_recognized_only_if _ _ Hin)
    as (_ & top_idx & _ & info & _ & Hinfo & _).
  by exists top_idx, info.
Defined.

(** ** The metadata builder's output, served *)

(** X4. An entry of the map built by [create_label_mapping] has both
    display strings empty exactly when the first row carrying its identifier
    has the empty text as LaTeX cell and a Unicode cell that is absent,
    missing, empty or ["nan"].  A service whose label table is that map
    answers the both-empty [data_error] exactly when the model has
    answered, with a confidence of at least 0.85, a class whose rendering is
    the key of such an entry. *)
Theorem create_label_mapping_both_empty_iff `{WebApp.Libraries}
    (labels_csv : list TrainModel.row) :
  let label_map := TrainModel.create_label_mapping labels_csv in
  let both_empty_row (key : string) :=
    ∃ i r,
      labels_csv !! i = Some r
      ∧ key = pretty (TrainModel.symbol_id r)
      ∧ (∀ j r', (j < i)%nat → labels_csv !! j = Some r' →
           TrainModel.symbol_id r' ≠ TrainModel.symbol_id r)
      ∧ TrainModel.latex r = TrainModel.Str ""
      ∧ (TrainModel.unicode r = None
         ∨ TrainModel.unicode r = Some TrainModel.NaN
         ∨ TrainModel.unicode r = Some (TrainModel.Str "")
         ∨ TrainModel.unicode r = Some (TrainModel.Str "nan")) in
  (∀ key entry, label_map !! key = Some entry →
     default "" (entry !! "unicode") = "" ∧ default "" (entry !! "latex") = ""
     ↔ both_empty_row key)
  ∧ (∀ (g : WebApp.globals) (request : WebApp.Request),
       WebApp.labels g = label_map →
       (WebApp.predict g request).2 = Statements.data_error_both_empty
       ↔ ∃ img_array (top_idx : nat) top_confidence,
           Statements.model_answers g request img_array top_idx top_confidence
           ∧ PrimFloat.leb 0.85 top_confidence = true
           ∧ both_empty_row (pretty top_idx)).
Proof.
  intros label_map both_empty_row.
  assert (∀ key entry, label_map !! key = Some entry →
            default "" (entry !! "unicode") = ""
            ∧ default "" (entry !! "latex") = ""
            ↔ both_empty_row key) as Hentry.
  { intros key entry Hk. pose proof Hk as Hk'.
    apply create_label_mapping_lookup_first in Hk'
      as (i & r & Hi & -> & Hfirst & ->).
    rewrite make_entry_both_empty_cells. split.
    - intros [Hcell Hu]. by exists i, r.
    - intros (i' & r' & Hi' & Hkey & Hfirst' & Hcell & Hu).
      assert (TrainModel.make_entry r = TrainModel.make_entry r') as Heq.
      { assert (label_map !! pretty (TrainModel.symbol_id r)
                = Some (TrainModel.make_entry r')) as Hk2.
        { apply create_label_mapping_lookup_first. by exists i', r'. }
        congruence. }
      apply make_entry_both_empty_cells. rewrite Heq.
      by apply make_entry_both_empty_cells. }
  split; [exact Hentry|].
  intros g request Hg. split.
  - intros Hresp.
    destruct (predict_cases g request)
      as [[_ Hp]
         |[(m & _ & _ & Hp)
          |[(m & file & e & _ & _ & Hp)
           |[(m & file & img & _ & _ & _ & Hp)
            |[(m & file & img & e & _ & _ & _ & _ & Hp)
             |(img & top_idx & c & Hrun)]]]]];
      try (rewrite Hp in Hresp; discriminate).
    destruct (predict_answer _ _ _ _ _ Hrun)
      as [[_ Hp]
         |(info & Hinfo & [[_ Hp]|[(Hc & Hu & Hl & _)|(_ & _ & Hp)]])];
      try (rewrite Hp in Hresp; discriminate).
    exists img, top_idx, c. split; [done|]. split; [done|].
    rewrite Hg in Hinfo. by apply (Hentry _ info).
  - intros (img & top_idx & c & Hrun & Hc & Hrow).
    destruct Hrow as (i & r & Hi & Hkey & Hfirst & Hcell & Hu).
    assert (label_map !! pretty top_idx = Some (TrainModel.make_entry r))
      as Hk.
    { apply create_label_mapping_lookup_first. by exists i, r. }
    destruct (proj2 (make_entry_both_empty_cells r) (conj Hcell Hu))
      as [Hue Hle].
    rewrite (predict_model_answers _ _ _ _ _ Hrun). cbn [snd].
    rewrite Hg, Hk. cbv zeta. unfold WebApp.CONFIDENCE_THRESHOLD.
    by rewrite Hc, Hue, Hle.
Qed.

Lemma create_label_mapping_both_empty_iff_witness :
  (WebApp.predict
     (WebApp.Globals
        (Some Sample.classifier)
        (TrainModel.create_label_mapping Sample.labels_csv_empty_latex))
     Sample.request).2
  = Statements.data_error_both_empty.
Proof.
  apply (proj2 (create_label_mapping_both_empty_iff
                  Sample.labels_csv_empty_latex)
           (WebApp.Globals
              (Some Sample.classifier)
              (TrainModel.create_label_mapping Sample.labels_csv_empty_latex))
           Sample.request eq_refl).
  exists Sample.img_array, 1%nat, 0.9375%float. split; [|split].
  - exists Sample.classifier, Sample.upload,
      [[0.03125; 0.9375; 0.03125]%float], [0.03125; 0.9375; 0.03125]%float.
    repeat split; try (vm_compute; reflexivity). discriminate.
  - reflexivity.
  - exists 0%nat, (TrainModel.Row 1 (TrainModel.Str "") None).
    split; [reflexivity|]. split; [reflexivity|].
    split; [intros j r' Hj; lia|]. split; [reflexivity|]. by left.
Defined.
